(** * videoke: a shallow embedding of [videoke/main.py]

    The development follows the Python module top to bottom: the path helpers
    ([extension], with the parts of [os.path] it calls), the two selectors
    ([random_music], [random_background]), the playback state machine
    ([VideoPlayer.play], [VideoPlayer.stop]) and the event dispatch of [main].

    Python [str] values are modelled as [string]s of 8-bit characters; the only
    case conversion the program performs ([str.lower] inside [extension]) is
    compared with ASCII literals, and no non-ASCII character lowers to an
    ASCII letter of those literals, so ASCII lowering decides the comparisons
    exactly as Python does. *)

From Stdlib Require Import String Ascii List ZArith Bool Lia.
Import ListNotations.
Open Scope string_scope.
Open Scope Z_scope.

(* ===================================================================== *)
(** ** Python string primitives *)
(* ===================================================================== *)

Module Py.

(** [s[n:]] for [0 <= n]. *)
Fixpoint drop (n : nat) (s : string) : string :=
  match n, s with
  | O, _ => s
  | S _, EmptyString => EmptyString
  | S n', String _ s' => drop n' s'
  end.

(** [s[:n]] for [0 <= n]. *)
Fixpoint take (n : nat) (s : string) : string :=
  match n, s with
  | O, _ => EmptyString
  | S _, EmptyString => EmptyString
  | S n', String a s' => String a (take n' s')
  end.

(** [s[i:i+1]] for [0 <= i]: the one-character string at [i], or [""] past
    the end. *)
Definition slice1 (s : string) (i : Z) : string :=
  take 1 (drop (Z.to_nat i) s).

(** [rfind_from c s i]: the highest index of [c] in [s], when the head of
    [s] has index [i]; [-1] when [c] does not occur. *)
Fixpoint rfind_from (c : ascii) (s : string) (i : Z) : Z :=
  match s with
  | EmptyString => -1
  | String a s' =>
      let r := rfind_from c s' (i + 1) in
      if 0 <=? r then r else if Ascii.eqb a c then i else -1
  end.

(** [s.rfind(c)] for a one-character [c]. *)
Definition rfind (c : ascii) (s : string) : Z := rfind_from c s 0.

(** [c.lower()] on one character: [A..Z] go to [a..z], the rest is fixed. *)
Definition lower_ascii (c : ascii) : ascii :=
  let n := nat_of_ascii c in
  if ((65 <=? n) && (n <=? 90))%nat then ascii_of_nat (n + 32) else c.

(** [s.lower()]. *)
Fixpoint lower (s : string) : string :=
  match s with
  | EmptyString => EmptyString
  | String a s' => String (lower_ascii a) (lower s')
  end.

(** [s.isascii()]: every character of [s] is below 128. On such an [s],
    [lower] is Python's [str.lower] letter for letter. *)
Fixpoint isascii (s : string) : bool :=
  match s with
  | EmptyString => true
  | String a s' => (nat_of_ascii a <? 128)%nat && isascii s'
  end.

(** [s.startswith(c)] and [s.endswith(c)] for a one-character [c]. *)
Definition startswith (s : string) (c : ascii) : bool :=
  match s with
  | String a _ => Ascii.eqb a c
  | EmptyString => false
  end.

Fixpoint endswith (s : string) (c : ascii) : bool :=
  match s with
  | EmptyString => false
  | String a EmptyString => Ascii.eqb a c
  | String _ s' => endswith s' c
  end.

(** [x in xs] on a tuple of strings. *)
Definition str_in (x : string) (xs : list string) : bool :=
  existsb (String.eqb x) xs.

End Py.

(* ===================================================================== *)
(** ** [os.path] (POSIX flavour: the module computes XDG paths) *)
(* ===================================================================== *)

Module OsPath.

Definition sep : ascii := "/"%char.
Definition extsep : ascii := "."%char.

(** The [while filenameIndex < dotIndex] loop of [genericpath._splitext]:
    [true] when it leaves through its [return] (a character other than
    [extsep] was met before [dotIndex]), [false] when it runs to the end
    (only dots between the separator and the last dot). [n] counts the
    iterations left, [dotIndex - filenameIndex]. *)
Fixpoint skip_leading_dots (p : string) (filenameIndex : Z) (n : nat) : bool :=
  match n with
  | O => false
  | S n' =>
      if negb (String.eqb (Py.slice1 p filenameIndex) (String extsep EmptyString))
      then true
      else skip_leading_dots p (filenameIndex + 1) n'
  end.

(** [genericpath._splitext(p, sep, None, extsep)], which is
    [os.path.splitext(p)] on POSIX. *)
Definition splitext (p : string) : string * string :=
  let sepIndex := Py.rfind sep p in
  let dotIndex := Py.rfind extsep p in
  if sepIndex <? dotIndex then
    let filenameIndex := sepIndex + 1 in
    if skip_leading_dots p filenameIndex (Z.to_nat (dotIndex - filenameIndex))
    then (Py.take (Z.to_nat dotIndex) p, Py.drop (Z.to_nat dotIndex) p)
    else (p, EmptyString)
  else (p, EmptyString).

(** [posixpath.join(a, b)] with one component [b]. *)
Definition join (a b : string) : string :=
  if Py.startswith b sep then b
  else if (String.eqb a EmptyString || Py.endswith a sep)%bool then a ++ b
  else a ++ String sep b.

End OsPath.

(* ===================================================================== *)
(** ** [extension] *)
(* ===================================================================== *)

(** [os.path.splitext(filepath)[1][1:].lower()] *)
Definition extension (filepath : string) : string :=
  Py.lower (Py.drop 1 (snd (OsPath.splitext filepath))).


(* ===================================================================== *)
(** ** Exceptions, surfaces and the world the module runs in *)
(* ===================================================================== *)

(** The exception classes the module can meet; all derive from [Exception]. *)
Inductive exn_class :=
  | FileNotFoundError | KeyError | IndexError | AttributeError
  | TypeError | ValueError | PygameError.

Record exn := Exn { exn_class_of : exn_class; exn_msg : string }.

Definition is_FileNotFoundError (e : exn) : bool :=
  match exn_class_of e with FileNotFoundError => true | _ => false end.

(** What running a piece of code gives: a value, a raised exception, or
    [Starved] when a [while True] loop around [random.choice] has used up
    every draw the model was given (the loop would go on drawing). *)
Inductive outcome (A : Type) :=
  | Return (a : A)
  | Raise (e : exn)
  | Starved.
Arguments Return {A} a.
Arguments Raise {A} e.
Arguments Starved {A}.

(** What a call into pygame gives: a value or a raised exception. *)
Inductive result (A : Type) :=
  | Ok (a : A)
  | Error (e : exn).
Arguments Ok {A} a.
Arguments Error {A} e.

Definition size := (Z * Z)%type.
Definition color := (Z * Z * Z * Z)%type.

Module COLORS.
Definition WHITE : color := (255, 255, 255, 255).
Definition MAGENTA : color := (255, 0, 255, 255).
Definition BLACK : color := (0, 0, 0, 255).
End COLORS.

(** An off-screen [pygame.Surface]: what [pygame.image.load],
    [pygame.image.frombuffer] and [resize] hand back. *)
Record Picture := { pic_size : size; pic_data : string }.

(** What has been drawn on the display surface, oldest first. *)
Inductive draw :=
  | Fill (c : color)                      (* surface.fill(c) *)
  | Blit (src : Picture) (dest : Z * Z)   (* surface.blit(src, dest) *)
  | Update.                               (* pygame.display.update() *)

(** The display [pygame.Surface] made by [pygame.display.set_mode]. *)
Record Surface := { get_size : size; drawn : list draw }.

(** [main] makes one display surface and hands the same object to
    [random_background] and to every [VideoPlayer]; a reference to it is
    therefore a token, and the surface itself lives in the [World]. *)
Inductive surface_ref := Display.

(** An [ffpyplayer.pic.Image]: its planes, size and pixel format. *)
Record Image := {
  img_planes : list string;
  img_size : size;
  img_pixel_format : option string }.

(** An [ff.MediaPlayer] handle. *)
Record MediaPlayer := { mp_path : string }.

Inductive log_record :=
  | LogDebugMusicFound (n : nat)      (* log.debug("%d music found", n) *)
  | LogInfoPlaying (video : string)   (* log.info("Playing: %s", video) *)
  | LogError (e : exn).               (* log.error(e) *)

Record Options := {
  DATADIR : string;
  MUSICDIR : string;
  BG_COLOR : color }.

(** What the module reads and never writes while [main] loops. *)
Record Env := {
  OPTIONS : Options;
  USERDATA : string;
  (** the file system: [None] for a path that is not a directory, else
      the names [os.listdir] gives *)
  listing : string -> option (list string);
  (** [pygame.image.load(path)] *)
  image_load : string -> result Picture;
  (** [pygame.image.frombuffer(buffer, size, format)] *)
  frombuffer : string -> size -> option string -> result Picture;
  (** [resize(image, size)]: pygame's conversion and smooth scaling *)
  resize : Picture -> size -> result Picture }.

(** The module globals and the objects outside the interpreter that the
    module changes. *)
Record World := {
  _last_music : option string;
  _current_background : option string;
  display : Surface;
  draws : list nat;              (* what the random generator will give *)
  log : list log_record;         (* oldest first *)
  closed : list MediaPlayer }.   (* handles [close_player] was called on *)

Definition set_last_music (v : option string) (w : World) : World :=
  {| _last_music := v; _current_background := _current_background w;
     display := display w; draws := draws w; log := log w; closed := closed w |}.

Definition set_current_background (v : option string) (w : World) : World :=
  {| _last_music := _last_music w; _current_background := v;
     display := display w; draws := draws w; log := log w; closed := closed w |}.

Definition set_display (s : Surface) (w : World) : World :=
  {| _last_music := _last_music w; _current_background := _current_background w;
     display := s; draws := draws w; log := log w; closed := closed w |}.

Definition set_draws (d : list nat) (w : World) : World :=
  {| _last_music := _last_music w; _current_background := _current_background w;
     display := display w; draws := d; log := log w; closed := closed w |}.

Definition add_log (r : log_record) (w : World) : World :=
  {| _last_music := _last_music w; _current_background := _current_background w;
     display := display w; draws := draws w; log := log w ++ [r];
     closed := closed w |}.

Definition add_closed (p : MediaPlayer) (w : World) : World :=
  {| _last_music := _last_music w; _current_background := _current_background w;
     display := display w; draws := draws w; log := log w;
     closed := closed w ++ [p] |}.

(** *** The monad: state that survives a raised exception

    [S] is the state the code can reach: the [World] for the module-level
    functions, the object [self] paired with the [World] for methods. A
    raised exception carries the state as the code left it. *)

Definition M (S A : Type) : Type := S -> outcome A * S.

Definition ret {S A} (a : A) : M S A := fun s => (Return a, s).

Definition bind {S A B} (c : M S A) (k : A -> M S B) : M S B :=
  fun s =>
    match c s with
    | (Return a, s') => k a s'
    | (Raise e, s') => (Raise e, s')
    | (Starved, s') => (Starved, s')
    end.

Definition raise {S A} (e : exn) : M S A := fun s => (Raise e, s).

Definition lift {S A} (r : result A) : M S A :=
  match r with
  | Ok a => ret a
  | Error e => raise e
  end.

Definition modify {S} (f : S -> S) : M S unit := fun s => (Return tt, f s).

Definition gets {S A} (f : S -> A) : M S A := fun s => (Return (f s), s).

(** Code that only touches the world, run from a method on an object [X]. *)
Definition in_world {X A} (c : M World A) : M (X * World) A :=
  fun s =>
    match c (snd s) with
    | (r, w') => (r, (fst s, w'))
    end.

(** [try: c  except Exception as e: h e] *)
Definition try_except {S A} (c : M S A) (h : exn -> M S A) : M S A :=
  fun s =>
    match c s with
    | (Raise e, s') => h e s'
    | r => r
    end.

(** [try: c  except FileNotFoundError as e: h e] *)
Definition try_except_FileNotFoundError {S A} (c : M S A) (h : exn -> M S A)
  : M S A :=
  fun s =>
    match c s with
    | (Raise e, s') => if is_FileNotFoundError e then h e s' else (Raise e, s')
    | r => r
    end.

Declare Scope py_scope.
Delimit Scope py_scope with py.
Notation "x <- c ;; k" := (bind c (fun x => k))
  (at level 61, c at next level, right associativity) : py_scope.
Notation "c ;;; k" := (bind c (fun _ => k))
  (at level 61, right associativity) : py_scope.
Open Scope py_scope.

(** *** Python containers *)

(** A [dict] with string keys keeps insertion order; assigning to a key
    that is present keeps its place and replaces its value. *)
Definition dict := list (string * string).

Fixpoint dict_set (k v : string) (d : dict) : dict :=
  match d with
  | [] => [(k, v)]
  | (k', v') :: d' =>
      if String.eqb k' k then (k, v) :: d' else (k', v') :: dict_set k v d'
  end.

(** [d.update(other)], and a dict display or comprehension from pairs. *)
Definition dict_update (d other : dict) : dict :=
  fold_left (fun acc kv => dict_set (fst kv) (snd kv) acc) other d.

Definition dict_of (kvs : list (string * string)) : dict := dict_update [] kvs.

Fixpoint dict_get (k : string) (d : dict) : option string :=
  match d with
  | [] => None
  | (k', v) :: d' => if String.eqb k' k then Some v else dict_get k d'
  end.

Definition keys (d : dict) : list string := map fst d.

(** [x != last] where [last] is a [str] or [None]. *)
Definition str_ne_opt (x : string) (last : option string) : bool :=
  match last with
  | None => true
  | Some y => negb (String.eqb x y)
  end.

(** [random.choice(seq)] on a non-empty [seq], the generator giving [r]. *)
Definition choice (seq : list string) (r : nat) : string :=
  nth (r mod List.length seq)%nat seq EmptyString.

(** [while True: x = random.choice(seq); if x != last: break], run on the
    draws left: the chosen element with the draws not used, or [None] when
    every draw was refused. *)
Fixpoint choice_until_new (seq : list string) (last : option string)
    (rs : list nat) : option (string * list nat) :=
  match rs with
  | [] => None
  | r :: rs' =>
      let x := choice seq r in
      if str_ne_opt x last then Some (x, rs') else choice_until_new seq last rs'
  end.

Definition random_choice_until_new (seq : list string) (last : option string)
  : M World string :=
  fun w =>
    match choice_until_new seq last (draws w) with
    | Some (x, rs') => (Return x, set_draws rs' w)
    | None => (Starved, set_draws [] w)
    end.

(* ===================================================================== *)
(** ** The selectors *)
(* ===================================================================== *)

Section Selectors.

Variable env : Env.

(** [os.listdir(path)] *)
Definition listdir (path : string) : M World (list string) :=
  match listing env path with
  | Some names => ret names
  | None => raise (Exn FileNotFoundError path)
  end.

(** [os.path.isdir(path)] *)
Definition isdir (path : string) : bool :=
  match listing env path with
  | Some _ => true
  | None => false
  end.

(** [centerblit(surface, dest)] with [dest] the display. *)
Definition centerblit (surface : Picture) (dest : surface_ref) : M World unit :=
  modify (fun w =>
    let '(w_, h_) := get_size (display w) in
    let '(x, y) := pic_size surface in
    set_display
      {| get_size := get_size (display w);
         drawn := drawn (display w)
                  ++ [Blit surface ((w_ / 2) - (x / 2), (h_ / 2) - (y / 2))] |}
      w).

(** [surface.fill(color)] on the display. *)
Definition surface_fill (surface : surface_ref) (c : color) : M World unit :=
  modify (fun w =>
    set_display
      {| get_size := get_size (display w);
         drawn := drawn (display w) ++ [Fill c] |}
      w).

(** [load_image(path, size)]: [resize(pygame.image.load(path), size)] *)
Definition load_image (path : string) (sz : size) : M World Picture :=
  image <- lift (image_load env path) ;;
  lift (resize env image sz).

(** The three directories [random_music] scans, in its order. *)
Definition music_dirs : list string :=
  [ OsPath.join (DATADIR (OPTIONS env)) "music";
    OsPath.join (USERDATA env) "music";
    MUSICDIR (OPTIONS env) ].

(** [os.listdir(mdir) if os.path.isdir(mdir) else []] *)
Definition listdir_if_isdir (mdir : string) : list string :=
  match listing env mdir with
  | Some names => names
  | None => []
  end.

(** The dict comprehension of one directory. *)
Definition music_in (mdir : string) : dict :=
  dict_of
    (map (fun f => (f, OsPath.join mdir f))
       (filter (fun f => String.eqb (extension f) "mp4")
          (listdir_if_isdir mdir))).

(** The [music] dict once the [for] loop has run. *)
Definition music_catalog : dict :=
  fold_left (fun music mdir => dict_update music (music_in mdir)) music_dirs [].

Definition random_music : M World string :=
  let music := music_catalog in
  modify (add_log (LogDebugMusicFound (List.length music))) ;;;
  match music with
  | [] => raise (Exn FileNotFoundError "No music found!")
  | _ =>
      video <- (if (List.length music =? 1)%nat
                then ret (nth 0 (keys music) EmptyString)
                else last <- gets _last_music ;;
                     random_choice_until_new (keys music) last) ;;
      match dict_get video music with
      | None => raise (Exn KeyError video)
      | Some path =>
          modify (set_last_music (Some path)) ;;;
          gets (fun w => match _last_music w with
                         | Some p => p
                         | None => EmptyString
                         end)
      end
  end.

(** The [bgs] tuple of [random_background]. *)
Definition backgrounds_in (bgdir : string) (names : list string) : list string :=
  map (OsPath.join bgdir)
    (filter (fun f => Py.str_in (extension f) ["bmp"; "jpg"; "jpeg"; "png"])
       names).

Definition random_background (surface : surface_ref) : M World unit :=
  let bgdir := OsPath.join (DATADIR (OPTIONS env)) "backgrounds" in
  names <- listdir bgdir ;;
  let bgs := backgrounds_in bgdir names in
  match bgs with
  | [] => ret tt
  | _ =>
      bg <- (if (List.length bgs =? 1)%nat
             then ret (nth 0 bgs EmptyString)
             else current <- gets _current_background ;;
                  random_choice_until_new bgs current) ;;
      surface_fill surface (BG_COLOR (OPTIONS env)) ;;;
      sz <- gets (fun w => get_size (display w)) ;;
      image <- load_image bg sz ;;
      centerblit image surface ;;;
      modify (set_current_background (Some bg))
  end.

End Selectors.

(* ===================================================================== *)
(** ** [class VideoPlayer] *)
(* ===================================================================== *)

(** A Python value that is [None], [True] or [False]: what [play] returns
    and what [main] keeps in [dirty]. *)
Inductive pyval := PyNone | PyTrue | PyFalse.

(** The truth value [if v:] tests. *)
Definition truthy (v : pyval) : bool :=
  match v with
  | PyTrue => true
  | PyNone | PyFalse => false
  end.

Module VideoPlayer.

Section WithClock.

(** Time stamps and delays are Python floats; the class only compares and
    adds them, and writes the integer [0]. *)
Context {T : Type} (lt : T -> T -> bool) (add : T -> T -> T) (zero : T).
Variable env : Env.

(** The attributes [__init__] creates. *)
Record t := {
  player : option MediaPlayer;
  surface : option surface_ref;
  image : option Image;
  wait : T;
  finished : bool }.

Definition set_player (v : option MediaPlayer) (self : t) : t :=
  {| player := v; surface := surface self; image := image self;
     wait := wait self; finished := finished self |}.

Definition set_surface (v : option surface_ref) (self : t) : t :=
  {| player := player self; surface := v; image := image self;
     wait := wait self; finished := finished self |}.

Definition set_image (v : option Image) (self : t) : t :=
  {| player := player self; surface := surface self; image := v;
     wait := wait self; finished := finished self |}.

Definition set_wait (v : T) (self : t) : t :=
  {| player := player self; surface := surface self; image := image self;
     wait := v; finished := finished self |}.

Definition set_finished (v : bool) (self : t) : t :=
  {| player := player self; surface := surface self; image := image self;
     wait := wait self; finished := v |}.

(** A method runs on [self] and the world. *)
Definition method (A : Type) : Type := M (t * World) A.

Definition self_get {A} (f : t -> A) : method A := gets (fun s => f (fst s)).

Definition self_set (f : t -> t) : method unit :=
  modify (fun s => (f (fst s), snd s)).

(** [VideoPlayer(path, surface)] *)
Definition __init__ (path : string) (surf : surface_ref) : t :=
  {| player := Some {| mp_path := path |};
     surface := Some surf;
     image := None;
     wait := zero;
     finished := false |}.

Definition has_finished (self : t) : bool := finished self.

(** What [self.player.get_frame()] can give, after ffpyplayer's
    documentation: [(None, 'eof')], [(None, 'paused')], [(None, val)] while
    no frame is ready, or [((image, pts), val)] with [val] the time to wait
    before showing [image]. *)
Inductive get_frame_result :=
  | Eof
  | Paused
  | NotReady (val : T)
  | Frame (img : Image) (pts : T) (val : T).

Definition stop : method unit :=
  p <- self_get player ;;
  match p with
  | Some mp =>
      in_world (modify (add_closed mp)) ;;;   (* self.player.close_player() *)
      self_set (set_player None)
  | None => ret tt
  end ;;;
  self_set (set_surface None) ;;;
  self_set (set_image None) ;;;
  self_set (set_wait zero) ;;;
  self_set (set_finished true).

(** [_fmt_map.get(fmt, None)] with
    [_fmt_map = {'rgb24': 'RGB', None: 'RGB'}] *)
Definition _fmt_map_get (fmt : option string) : option string :=
  match fmt with
  | None => Some "RGB"
  | Some f => if String.eqb f "rgb24" then Some "RGB" else None
  end.

(** The body of the [try] in [play]. A [None] where an object is needed
    raises [AttributeError], an empty plane list [IndexError]. *)
Definition render : method unit :=
  im <- self_get image ;;
  match im with
  | None => raise (Exn AttributeError "to_bytearray")
  | Some frame =>
      buffer <- match img_planes frame with
                | b :: _ => ret b
                | [] => raise (Exn IndexError "to_bytearray()[0]")
                end ;;
      image_ <- in_world
                  (lift (frombuffer env buffer (img_size frame)
                           (_fmt_map_get (img_pixel_format frame)))) ;;
      surf <- self_get surface ;;
      match surf with
      | None => raise (Exn AttributeError "get_size")
      | Some dest =>
          sz <- in_world (gets (fun w => get_size (display w))) ;;
          resized <- in_world (lift (resize env image_ sz)) ;;
          in_world (centerblit resized dest)
      end
  end.

(** [play] from the comment [# Display it] to its end. The [try] block
    gives [Some v] when its handler returned [v], [None] when control runs
    on after the [try] statement. *)
Definition display_it : method pyval :=
  returned <- try_except
                (render ;;; ret None)
                (fun e =>
                   in_world (modify (add_log (LogError e))) ;;;
                   stop ;;;
                   ret (Some PyNone)) ;;
  match returned with
  | Some v => ret v
  | None =>
      self_set (set_image None) ;;;
      ret PyTrue
  end.

(** [play()], on a tick where [time.time()] reads [now] and
    [self.player.get_frame()], if it is called, gives [got]. *)
Definition play (now : T) (got : get_frame_result) : method pyval :=
  p <- self_get player ;;
  match p with
  | None => ret PyNone
  | Some _ =>
      im <- self_get image ;;
      match im with
      | Some _ =>
          w <- self_get wait ;;
          if lt now w then ret PyNone else display_it
      | None =>
          match got with
          | Eof => stop ;;; ret PyNone
          | Paused | NotReady _ => ret PyNone
          | Frame img _ val =>
              self_set (set_image (Some img)) ;;;
              if lt zero val
              then self_set (set_wait (add now val)) ;;; ret PyNone
              else display_it
          end
      end
  end.

(** [play()] again, with the call [self.player.get_frame()] written as the
    call it is: it stands before the [try] statement, and an exception the
    decoder raises there leaves [play] as it is. [asked] is what the call
    does on this tick, if it is made. *)
Definition play_asking (now : T) (asked : result get_frame_result)
  : method pyval :=
  p <- self_get player ;;
  match p with
  | None => ret PyNone
  | Some _ =>
      im <- self_get image ;;
      match im with
      | Some _ =>
          w <- self_get wait ;;
          if lt now w then ret PyNone else display_it
      | None =>
          got <- lift asked ;;
          match got with
          | Eof => stop ;;; ret PyNone
          | Paused | NotReady _ => ret PyNone
          | Frame img _ val =>
              self_set (set_image (Some img)) ;;;
              if lt zero val
              then self_set (set_wait (add now val)) ;;; ret PyNone
              else display_it
          end
      end
  end.

End WithClock.

End VideoPlayer.

(* ===================================================================== *)
(** ** [main]: the event loop *)
(* ===================================================================== *)

(** The pygame constants [main] compares with. *)
Module pygame.
Definition BUTTON_LEFT : Z := 1.
Definition BUTTON_RIGHT : Z := 3.
Definition K_RETURN : Z := 13.
Definition K_ESCAPE : Z := 27.
Definition K_SPACE : Z := 32.
End pygame.

(** A pygame event, by its [type] and the attribute [main] reads from it;
    every other type is [OTHER]. *)
Inductive event :=
  | QUIT
  | MOUSEBUTTONUP (button : Z)
  | KEYUP (key : Z)
  | OTHER.

Module Main.

Section WithClock.

Context {T : Type} (lt : T -> T -> bool) (add : T -> T -> T) (zero : T).
Variable env : Env.

(** The local variables of [main] that the loop uses. *)
Record locals := {
  screen : surface_ref;
  done : bool;
  dirty : pyval;
  player : option (@VideoPlayer.t T) }.

Definition set_done (v : bool) (l : locals) : locals :=
  {| screen := screen l; done := v; dirty := dirty l; player := player l |}.

Definition set_dirty (v : pyval) (l : locals) : locals :=
  {| screen := screen l; done := done l; dirty := v; player := player l |}.

Definition set_player (v : option (@VideoPlayer.t T)) (l : locals) : locals :=
  {| screen := screen l; done := done l; dirty := dirty l; player := v |}.

Definition code (A : Type) : Type := M (locals * World) A.

Definition local_get {A} (f : locals -> A) : code A := gets (fun s => f (fst s)).

Definition local_set (f : locals -> locals) : code unit :=
  modify (fun s => (f (fst s), snd s)).

(** [player.m()] for the object [p] that the variable [player] is bound
    to: the method changes the object in place, the variable keeps it. *)
Definition call {A} (m : VideoPlayer.method A) (p : VideoPlayer.t) : code A :=
  fun s =>
    match m (p, snd s) with
    | (r, (p', w')) => (r, (set_player (Some p') (fst s), w'))
    end.

(** The [elif] arm of the Return key. *)
Definition on_return : code unit :=
  pl <- local_get player ;;
  match pl with
  | Some p => call (VideoPlayer.stop zero) p
  | None =>
      try_except_FileNotFoundError
        (video <- in_world (random_music env) ;;
         scr <- local_get screen ;;
         local_set (set_player (Some (VideoPlayer.__init__ zero video scr))) ;;;
         in_world (modify (add_log (LogInfoPlaying video))))
        (fun e => in_world (modify (add_log (LogError e))))
  end.

(** The arm of a left click and of the space bar. *)
Definition on_redraw : code unit :=
  scr <- local_get screen ;;
  in_world (random_background env scr) ;;;
  local_set (set_dirty PyTrue).

(** The body of [for event in pygame.event.get()]. *)
Definition on_event (ev : event) : code unit :=
  match ev with
  | QUIT => local_set (set_done true)
  | MOUSEBUTTONUP button =>
      if button =? pygame.BUTTON_RIGHT then local_set (set_done true)
      else if button =? pygame.BUTTON_LEFT then on_redraw
      else ret tt
  | KEYUP key =>
      if key =? pygame.K_ESCAPE then local_set (set_done true)
      else if key =? pygame.K_SPACE then on_redraw
      else if key =? pygame.K_RETURN then on_return
      else ret tt
  | OTHER => ret tt
  end.

Fixpoint for_each (evs : list event) : code unit :=
  match evs with
  | [] => ret tt
  | ev :: evs' => on_event ev ;;; for_each evs'
  end.

(** [pygame.display.update()] *)
Definition display_update : M World unit :=
  modify (fun w =>
    set_display
      {| get_size := get_size (display w);
         drawn := drawn (display w) ++ [Update] |}
      w).

(** What one turn of the loop takes from outside: the events polled, the
    clock and the decoder's answer (see [VideoPlayer.play]). *)
Record tick := {
  events : list event;
  now : T;
  got : @VideoPlayer.get_frame_result T }.

(** The body of [while not done]. *)
Definition loop_body (i : tick) : code unit :=
  for_each (events i) ;;;
  pl <- local_get player ;;
  match pl with
  | Some p =>
      if VideoPlayer.finished p then
        local_set (set_player None) ;;;
        scr <- local_get screen ;;
        in_world (random_background env scr) ;;;
        local_set (set_dirty PyTrue)
      else
        r <- call (VideoPlayer.play lt add zero env (now i) (got i)) p ;;
        local_set (set_dirty r)
  | None => ret tt
  end ;;;
  d <- local_get dirty ;;
  if truthy d then
    in_world display_update ;;;
    local_set (set_dirty PyFalse)
  else ret tt.

(** [while not done: ...], one [tick] per turn. *)
Fixpoint loop (ticks : list tick) : code unit :=
  match ticks with
  | [] => ret tt
  | i :: ticks' =>
      d <- local_get done ;;
      if d then ret tt else loop_body i ;;; loop ticks'
  end.

End WithClock.

End Main.

(* ===================================================================== *)
(** ** [main]: the command line and the configuration file *)
(* ===================================================================== *)

(** The levels of the [logging] module that [main] uses. *)
Module logging.
Definition DEBUG : Z := 10.
Definition INFO : Z := 20.
Definition WARNING : Z := 30.
End logging.

Module Startup.

(** The attributes of [OPTIONS] that [main] assigns before its loop. *)
Record options := {
  FULLSCREEN : bool;
  LOGLEVEL : Z;
  DEBUG : bool;
  FPS : Z;
  CONFIG : string;
  MUSICDIR : string }.

Definition set_FULLSCREEN (v : bool) (o : options) : options :=
  {| FULLSCREEN := v; LOGLEVEL := LOGLEVEL o; DEBUG := DEBUG o; FPS := FPS o;
     CONFIG := CONFIG o; MUSICDIR := MUSICDIR o |}.

Definition set_LOGLEVEL (v : Z) (o : options) : options :=
  {| FULLSCREEN := FULLSCREEN o; LOGLEVEL := v; DEBUG := DEBUG o; FPS := FPS o;
     CONFIG := CONFIG o; MUSICDIR := MUSICDIR o |}.

Definition set_DEBUG (v : bool) (o : options) : options :=
  {| FULLSCREEN := FULLSCREEN o; LOGLEVEL := LOGLEVEL o; DEBUG := v;
     FPS := FPS o; CONFIG := CONFIG o; MUSICDIR := MUSICDIR o |}.

Definition set_FPS (v : Z) (o : options) : options :=
  {| FULLSCREEN := FULLSCREEN o; LOGLEVEL := LOGLEVEL o; DEBUG := DEBUG o;
     FPS := v; CONFIG := CONFIG o; MUSICDIR := MUSICDIR o |}.

Definition set_CONFIG (v : string) (o : options) : options :=
  {| FULLSCREEN := FULLSCREEN o; LOGLEVEL := LOGLEVEL o; DEBUG := DEBUG o;
     FPS := FPS o; CONFIG := v; MUSICDIR := MUSICDIR o |}.

Definition set_MUSICDIR (v : string) (o : options) : options :=
  {| FULLSCREEN := FULLSCREEN o; LOGLEVEL := LOGLEVEL o; DEBUG := DEBUG o;
     FPS := FPS o; CONFIG := CONFIG o; MUSICDIR := v |}.

(** What stops [main] before its loop: [argv[i+1]] past the end, [int] on
    something that is no number, or whatever [configparser] raises and
    [main] does not catch (a missing section, a file it cannot parse). *)
Inductive error :=
  | ArgvIndexError
  | IntValueError (text : string)
  | ConfigError (name : string).

(** What [main] logs on the way. *)
Inductive line :=
  | Warning (msg config : string)    (* log.warning("%s in %s", e, CONFIG) *)
  | ReadingMusicFrom (dir : string). (* log.info('Reading music from: %s') *)

(** [main] reaches its display set-up with these options and log lines, or
    an exception leaves it. *)
Inductive started :=
  | Started (o : options) (lines : list line)
  | Raised (e : error).

(** What the configuration files give: none of them could be read, or the
    value of [music] in the section of the program, or that section
    without the option, or an exception of another kind. *)
Inductive config_get :=
  | NothingRead
  | Music (v : string)
  | NoOptionError (msg : string)
  | OtherError (name : string).

(** The tuples that [arg in (...)] tests. *)
Definition is_fullscreen (arg : string) : bool :=
  Py.str_in arg ["-f"; "--fullscreen"].
Definition is_quiet (arg : string) : bool :=
  Py.str_in arg ["-q"; "--quiet"].
Definition is_debug (arg : string) : bool :=
  Py.str_in arg ["-d"; "--debug"; "-v"; "--verbose"].
Definition is_fps (arg : string) : bool :=
  Py.str_in arg ["-F"; "--fps"; "--FPS"].
Definition is_config (arg : string) : bool :=
  Py.str_in arg ["-c"; "--config"].
Definition is_music (arg : string) : bool :=
  Py.str_in arg ["-m"; "--music"; "--music-dir"].

(** [os.path.basename(p)] *)
Definition basename (p : string) : string :=
  Py.drop (Z.to_nat (Py.rfind OsPath.sep p + 1)) p.

Section WithPlatform.

(** [int(text)]: [None] when it raises [ValueError]. *)
Variable py_int : string -> option Z.
(** [os.path.expanduser] *)
Variable expanduser : string -> string.
(** [cp.read(paths)] followed, when it read a file, by
    [cp.get(SLUG, 'music')]. *)
Variable read_config : list string -> config_get.
(** The module constant [CONFIG] and [OPTIONS.DATADIR]. *)
Variable CONFIG_default : string.
Variable DATADIR : string.

(** The first [for i, arg in enumerate(argv)]: [argv[i+1]] is the head of
    what follows [arg]. *)
Fixpoint scan_flags (argv : list string) (o : options) : error + options :=
  match argv with
  | [] => inr o
  | arg :: rest =>
      if is_fullscreen arg then scan_flags rest (set_FULLSCREEN true o)
      else if is_quiet arg then scan_flags rest (set_LOGLEVEL logging.WARNING o)
      else if is_debug arg then scan_flags rest (set_LOGLEVEL logging.DEBUG o)
      else if is_fps arg then
        match rest with
        | [] => inl ArgvIndexError
        | text :: _ =>
            match py_int text with
            | None => inl (IntValueError text)
            | Some n => scan_flags rest (set_FPS n o)
            end
        end
      else if is_config arg then
        match rest with
        | [] => inl ArgvIndexError
        | path :: _ => scan_flags rest (set_CONFIG path o)
        end
      else scan_flags rest o
  end.

(** The second loop over [argv], for the music directory. *)
Fixpoint scan_music (argv : list string) (o : options) : error + options :=
  match argv with
  | [] => inr o
  | arg :: rest =>
      if is_music arg then
        match rest with
        | [] => inl ArgvIndexError
        | dir :: _ => scan_music rest (set_MUSICDIR dir o)
        end
      else scan_music rest o
  end.

(** The files [cp.read] is given, in its order. *)
Definition config_files (o : options) : list string :=
  [ CONFIG o;
    CONFIG_default;
    fold_left OsPath.join [".."; ".."; basename CONFIG_default] DATADIR ].

(** [main] from its first line to [log.info('Reading music from: ...')]. *)
Definition startup (argv : list string) (o : options) : started :=
  match scan_flags argv o with
  | inl e => Raised e
  | inr o1 =>
      let o2 := set_DEBUG (LOGLEVEL o1 =? logging.DEBUG) o1 in
      match read_config (config_files o2) with
      | OtherError name => Raised (ConfigError name)
      | got =>
          let '(o3, lines) :=
            match got with
            | Music v => (set_MUSICDIR (expanduser v) o2, [])
            | NoOptionError msg => (o2, [Warning msg (CONFIG o2)])
            | _ => (o2, [])
            end in
          match scan_music argv o3 with
          | inl e => Raised e
          | inr o4 => Started o4 (lines ++ [ReadingMusicFrom (MUSICDIR o4)])
          end
      end
  end.

End WithPlatform.

End Startup.

(* ===================================================================== *)
(** ** Vocabulary of the statements *)
(* ===================================================================== *)

(** The world after [centerblit(pic, display)]. *)
Definition blitted (pic : Picture) (w : World) : World :=
  snd (centerblit pic Display w).

Section Vocabulary.

Context {T : Type} (lt : T -> T -> bool) (add : T -> T -> T) (zero : T).
Variable env : Env.

(** The session [stop] leaves behind. *)
Definition stopped : @VideoPlayer.t T :=
  {| VideoPlayer.player := None;
     VideoPlayer.surface := None;
     VideoPlayer.image := None;
     VideoPlayer.wait := zero;
     VideoPlayer.finished := true |}.

(** The world once the decoder of [self], if it has one, is closed. *)
Definition released (self : @VideoPlayer.t T) (w : World) : World :=
  match VideoPlayer.player self with
  | Some mp => add_closed mp w
  | None => w
  end.

(** A caller that calls [play] once per tick and keeps what it returned. *)
Fixpoint plays (ticks : list (T * @VideoPlayer.get_frame_result T))
  : VideoPlayer.method (list pyval) :=
  match ticks with
  | [] => ret []
  | (now, got) :: ticks' =>
      r <- VideoPlayer.play lt add zero env now got ;;
      rs <- plays ticks' ;;
      ret (r :: rs)
  end.

End Vocabulary.

(** [mdir] is a directory whose listing holds the name [f], and [f] has
    the extension [mp4]: the scan of [mdir] keeps [f]. *)
Definition listed (env : Env) (mdir f : string) : bool :=
  existsb (String.eqb f)
    (filter (fun f => String.eqb (extension f) "mp4")
       (listdir_if_isdir env mdir)).

(** [c in s] for a one-character [c]. *)
Fixpoint occurs (c : ascii) (s : string) : bool :=
  match s with
  | EmptyString => false
  | String a s' => Ascii.eqb a c || occurs c s'
  end.

(** [s] is made of dots only (the empty string too). *)
Fixpoint all_dots (s : string) : bool :=
  match s with
  | EmptyString => true
  | String a s' => Ascii.eqb a "."%char && all_dots s'
  end.

(** The claim's reading of a recognized music file: the name ends with a
    dot and [mp4] in any letter case. *)
Definition ends_with_dot_mp4 (f : string) : Prop :=
  exists stem e, f = stem ++ "." ++ e /\ Py.lower e = "mp4".

(** The directory [random_background] scans. *)
Definition bgdir (env : Env) : string :=
  OsPath.join (DATADIR (OPTIONS env)) "backgrounds".

(** The world after [surface.fill(OPTIONS.BG_COLOR)] on the display. *)
Definition filled (env : Env) (w : World) : World :=
  snd (surface_fill Display (BG_COLOR (OPTIONS env)) w).

(** The world after [random_background] has drawn [pic], loaded from the
    path [bg], and remembered [bg]. *)
Definition painted (env : Env) (bg : string) (pic : Picture) (w : World)
  : World :=
  set_current_background (Some bg) (blitted pic (filled env w)).

(* ===================================================================== *)
(** ** Concrete scenarios *)
(* ===================================================================== *)

Module Scenario.

(** A file system with two songs and two backgrounds in the data directory. *)
Definition fs (path : string) : option (list string) :=
  if String.eqb path "/data/music" then Some ["a.mp4"; "b.mp4"]
  else if String.eqb path "/data/backgrounds" then Some ["x.png"; "y.jpg"]
  else None.

(** One song, one background. *)
Definition fs_single (path : string) : option (list string) :=
  if String.eqb path "/data/music" then Some ["a.mp4"; "notes.txt"]
  else if String.eqb path "/data/backgrounds" then Some ["x.png"]
  else None.

(** A background directory without images, and no music anywhere. *)
Definition fs_empty (path : string) : option (list string) :=
  if String.eqb path "/data/backgrounds" then Some ["README"]
  else None.

(** No directory at all. *)
Definition fs_none (path : string) : option (list string) := None.

Definition options : Options :=
  {| DATADIR := "/data"; MUSICDIR := "/data/music"; BG_COLOR := COLORS.BLACK |}.

(** pygame as it behaves on well-formed input: [frombuffer] refuses a
    format that is not a string. *)
Definition env_with (listing_ : string -> option (list string)) : Env :=
  {| OPTIONS := options;
     USERDATA := "/home/u/.local/share/videoke";
     listing := listing_;
     image_load := fun path => Ok {| pic_size := (800, 600); pic_data := path |};
     frombuffer := fun buffer sz fmt =>
       match fmt with
       | Some _ => Ok {| pic_size := sz; pic_data := buffer |}
       | None => Error (Exn TypeError "frombuffer: format must be str")
       end;
     resize := fun image sz => Ok {| pic_size := sz; pic_data := pic_data image |} |}.

Definition env := env_with fs.

(** The same directories, with image files pygame cannot read. *)
Definition env_unreadable : Env :=
  {| OPTIONS := options;
     USERDATA := USERDATA env;
     listing := fs;
     image_load := fun path =>
       Error (Exn PygameError "Unsupported image format");
     frombuffer := frombuffer env;
     resize := resize env |}.

(** The same directories, with a pygame that cannot scale a picture. *)
Definition env_scarce : Env :=
  {| OPTIONS := options;
     USERDATA := USERDATA env;
     listing := fs;
     image_load := image_load env;
     frombuffer := frombuffer env;
     resize := fun image sz => Error (Exn PygameError "Out of memory") |}.

Definition world (rs : list nat) : World :=
  {| _last_music := None;
     _current_background := None;
     display := {| get_size := (1600, 900); drawn := [] |};
     draws := rs;
     log := [];
     closed := [] |}.

Definition rgb_frame : Image :=
  {| img_planes := ["pixels"]; img_size := (640, 480);
     img_pixel_format := Some "rgb24" |}.

(** A session on whole seconds: created, and with a frame scheduled for
    time [5]. *)
Definition fresh : @VideoPlayer.t Z :=
  VideoPlayer.__init__ 0 "/data/music/a.mp4" Display.

Definition scheduled : @VideoPlayer.t Z :=
  VideoPlayer.set_wait 5 (VideoPlayer.set_image (Some rgb_frame) fresh).

Definition play := @VideoPlayer.play Z Z.ltb Z.add 0 env.

(** [main] as it enters its loop, before the first background is drawn. *)
Definition idle : @Main.locals Z :=
  {| Main.screen := Display; Main.done := false; Main.dirty := PyFalse;
     Main.player := None |}.

(** [main] while the frame scheduled for time 5 waits. *)
Definition playing : @Main.locals Z :=
  {| Main.screen := Display; Main.done := false; Main.dirty := PyFalse;
     Main.player := Some scheduled |}.

Definition tick (evs : list event) (now : Z)
    (got : @VideoPlayer.get_frame_result Z) : @Main.tick Z :=
  {| Main.events := evs; Main.now := now; Main.got := got |}.

(** The options [class OPTIONS] starts with, for a configuration file in
    the user's directory. *)
Definition defaults : Startup.options :=
  {| Startup.FULLSCREEN := false;
     Startup.LOGLEVEL := logging.INFO;
     Startup.DEBUG := false;
     Startup.FPS := 60;
     Startup.CONFIG := "/home/u/.config/videoke/videoke.ini";
     Startup.MUSICDIR := "/data/music" |}.

(** A platform where [int] reads [30] and nothing else, and where the
    configuration file names the music directory [~/songs]. *)
Definition startup (argv : list string) : Startup.started :=
  Startup.startup
    (fun text => if String.eqb text "30" then Some 30 else None)
    (fun path => path)
    (fun files => Startup.Music "/home/u/songs")
    "/home/u/.config/videoke/videoke.ini" "/data"
    argv defaults.

(** One song played to its end: Return is pressed at time 1 and the first
    frame is due at once, the second frame comes at time 2 and is due 3
    seconds later, the stream ends at time 6, and the window is closed at
    time 8. *)
Definition session : list (@Main.tick Z) :=
  [ tick [KEYUP pygame.K_RETURN] 1 (VideoPlayer.Frame rgb_frame 0 0);
    tick [] 2 (VideoPlayer.Frame rgb_frame 0 3);
    tick [] 3 VideoPlayer.Eof;
    tick [] 5 VideoPlayer.Eof;
    tick [] 6 VideoPlayer.Eof;
    tick [] 7 VideoPlayer.Eof;
    tick [QUIT] 8 VideoPlayer.Eof;
    tick [] 9 VideoPlayer.Eof ].

End Scenario.

(* ===================================================================== *)
(** ** Callers of a session *)
(* ===================================================================== *)

Section Callers.

Context {T : Type} (lt : T -> T -> bool) (add : T -> T -> T) (zero : T).
Variable env : Env.

(** What a caller can do with a session once it is created. *)
Inductive op :=
  | Play (now : T) (got : @VideoPlayer.get_frame_result T)
  | Stop.

Definition run_op (o : op) : @VideoPlayer.method T unit :=
  match o with
  | Play now got => VideoPlayer.play lt add zero env now got ;;; ret tt
  | Stop => VideoPlayer.stop zero
  end.

(** The calls of [ops], one after the other. *)
Fixpoint run (ops : list op) : @VideoPlayer.method T unit :=
  match ops with
  | [] => ret tt
  | o :: ops' => run_op o ;;; run ops'
  end.

(** A session is alive with the decoder [mp] and the surface [surf], or it
    is the stopped one; [mp] is closed exactly in the second case, on top of
    the handles [c0] closed before. *)
Definition alive_or_stopped (mp : MediaPlayer) (surf : surface_ref)
    (c0 : list MediaPlayer) (s : @VideoPlayer.t T * World) : Prop :=
  (VideoPlayer.player (fst s) = Some mp
   /\ VideoPlayer.surface (fst s) = Some surf
   /\ VideoPlayer.finished (fst s) = false
   /\ closed (snd s) = c0)
  \/ (fst s = stopped zero /\ closed (snd s) = (c0 ++ [mp])%list).

End Callers.

(** [c] leaves the part [f] of the state as it was, however it ends. *)
Definition leaves {S A X} (f : S -> X) (c : M S A) : Prop :=
  forall s o s', c s = (o, s') -> f s' = f s.

(** The events that make [main] leave its loop. *)
Definition quits (ev : event) : bool :=
  match ev with
  | QUIT => true
  | MOUSEBUTTONUP button => button =? pygame.BUTTON_RIGHT
  | KEYUP key => key =? pygame.K_ESCAPE
  | OTHER => false
  end.

(* ===================================================================== *)
(** ** [extension] on examples *)
(* ===================================================================== *)

(** The example of the docstring. *)
Example extension_doc : extension "A.JPG" = "jpg".
Proof. reflexivity. Qed.

(** A POSIX hidden file has no extension. *)
Example extension_hidden : extension ".mp4" = "".
Proof. reflexivity. Qed.

(** Dots in directories and leading dots of the name do not count. *)
Example extension_path : extension "/a.b/.c..MP4" = "mp4".
Proof. reflexivity. Qed.

(* ===================================================================== *)
(** ** The playback state machine *)
(* ===================================================================== *)

Section PlaybackFacts.

Context {T : Type} (lt : T -> T -> bool) (add : T -> T -> T) (zero : T).
Variable env : Env.

Local Abbreviation Session := (@VideoPlayer.t T).
Local Abbreviation play := (VideoPlayer.play lt add zero env).
Local Abbreviation play_asking := (VideoPlayer.play_asking lt add zero env).
Local Abbreviation stop := (VideoPlayer.stop zero).
Local Abbreviation display_it := (VideoPlayer.display_it zero env).
Local Abbreviation render := (@VideoPlayer.render T env).

Lemma stop_eq (self : Session) (w : World) :
  stop (self, w) = (Return tt, (stopped zero, released self w)).
Proof.
  unfold VideoPlayer.stop, released, stopped.
  destruct self as [p sf im wt fin]; destruct p; reflexivity.
Qed.

(** [render] either blits one picture and leaves [self] alone, or raises
    with nothing changed. *)
Lemma render_cases (self : Session) (w : World) :
  (exists pic, render (self, w) = (Return tt, (self, blitted pic w)))
  \/ (exists e, render (self, w) = (Raise e, (self, w))).
Proof.
  unfold VideoPlayer.render, bind, VideoPlayer.self_get, gets, in_world, lift.
  cbn [fst snd].
  destruct (VideoPlayer.image self) as [frame|]; [|right; eexists; reflexivity].
  destruct (img_planes frame) as [|b bs]; [right; eexists; reflexivity|].
  cbn [ret raise].
  destruct (frombuffer env b (img_size frame) _) as [pic|e]; cbn;
    [|right; eexists; reflexivity].
  destruct (VideoPlayer.surface self) as [dest|]; [|right; eexists; reflexivity].
  cbn.
  destruct (resize env pic _) as [pic'|e]; cbn;
    [|right; eexists; reflexivity].
  left. exists pic'. destruct dest. reflexivity.
Qed.

Lemma display_it_ok (self : Session) (w : World) (s' : Session * World) :
  render (self, w) = (Return tt, s') ->
  display_it (self, w)
  = (Return PyTrue, (VideoPlayer.set_image None (fst s'), snd s')).
Proof.
  intros H. unfold VideoPlayer.display_it, bind, try_except.
  rewrite H. destruct s'; reflexivity.
Qed.

Lemma display_it_error (self : Session) (w : World) (e : exn)
    (s' : Session * World) :
  render (self, w) = (Raise e, s') ->
  display_it (self, w)
  = (Return PyNone,
     (stopped zero, released (fst s') (add_log (LogError e) (snd s')))).
Proof.
  intros H. unfold VideoPlayer.display_it, bind, try_except.
  rewrite H. destruct s' as [self1 w1].
  unfold in_world, modify. cbn [fst snd].
  rewrite stop_eq. reflexivity.
Qed.

Lemma render_raise_same (s s' : Session * World) (e : exn) :
  render s = (Raise e, s') -> s' = s.
Proof.
  destruct s as [self w]. intros H.
  destruct (render_cases self w) as [[pic Hp]|[e' He]];
    rewrite H in *; congruence.
Qed.

Lemma render_return_blits (s s' : Session * World) :
  render s = (Return tt, s') ->
  exists pic, s' = (fst s, blitted pic (snd s)).
Proof.
  destruct s as [self w]. intros H.
  destruct (render_cases self w) as [[pic Hp]|[e' He]];
    rewrite H in *; [|congruence].
  exists pic. cbn [fst snd]. congruence.
Qed.

(** What the statement after [# Display it] comes to. *)
Lemma display_it_cases (self : Session) (w : World) :
  (exists pic,
      render (self, w) = (Return tt, (self, blitted pic w))
      /\ display_it (self, w)
         = (Return PyTrue, (VideoPlayer.set_image None self, blitted pic w)))
  \/ (exists e,
      render (self, w) = (Raise e, (self, w))
      /\ display_it (self, w)
         = (Return PyNone,
            (stopped zero, released self (add_log (LogError e) w)))).
Proof.
  destruct (render_cases self w) as [[pic Hp]|[e He]]; [left|right].
  - exists pic. split; [exact Hp|]. now rewrite (display_it_ok _ _ _ Hp).
  - exists e. split; [exact He|]. now rewrite (display_it_error _ _ _ _ He).
Qed.

(** [play] branch by branch, as the source reads. *)
Lemma play_eq (now : T) (got : VideoPlayer.get_frame_result) (self : Session)
    (w : World) :
  play now got (self, w) =
  match VideoPlayer.player self with
  | None => (Return PyNone, (self, w))
  | Some _ =>
      match VideoPlayer.image self with
      | Some _ =>
          if lt now (VideoPlayer.wait self) then (Return PyNone, (self, w))
          else display_it (self, w)
      | None =>
          match got with
          | VideoPlayer.Eof =>
              (Return PyNone, (stopped zero, released self w))
          | VideoPlayer.Paused | VideoPlayer.NotReady _ =>
              (Return PyNone, (self, w))
          | VideoPlayer.Frame img _ val =>
              if lt zero val
              then (Return PyNone,
                    (VideoPlayer.set_wait (add now val)
                       (VideoPlayer.set_image (Some img) self), w))
              else display_it (VideoPlayer.set_image (Some img) self, w)
          end
      end
  end.
Proof.
  unfold VideoPlayer.play, bind, VideoPlayer.self_get, gets. cbn [fst snd].
  destruct (VideoPlayer.player self) as [mp|]; [|reflexivity].
  cbn [fst snd].
  destruct (VideoPlayer.image self) as [im|]; cbn [fst snd].
  - destruct (lt now (VideoPlayer.wait self)); reflexivity.
  - destruct got as [| |v|img pts val]; try reflexivity.
    + rewrite stop_eq. reflexivity.
    + unfold VideoPlayer.self_set, modify. cbn [fst snd].
      destruct (lt zero val); reflexivity.
Qed.

(** A run of ticks on which [play] changes nothing reports nothing. *)
Lemma plays_idle (s : Session * World)
    (ticks : list (T * VideoPlayer.get_frame_result)) :
  (forall t g, In (t, g) ticks -> play t g s = (Return PyNone, s)) ->
  plays lt add zero env ticks s
  = (Return (repeat PyNone (List.length ticks)), s).
Proof.
  induction ticks as [|[t g] ticks IH]; intros H; [reflexivity|].
  cbn [plays List.length repeat]. unfold bind.
  rewrite (H t g (or_introl eq_refl)).
  fold (@bind (Session * World) (list pyval) (list pyval)).
  unfold bind. rewrite IH; [reflexivity|].
  intros t' g' Hin. apply H. right. exact Hin.
Qed.

(** C3: [stop()] on a session in any state closes the decoder it holds,
    drops the decoder and surface references and leaves the session
    finished; a second [stop()] changes nothing; and every later [play()]
    changes nothing and returns [None], which tests false. *)
Theorem stop_finishes_for_good (self : Session) (w : World) :
  stop (self, w) = (Return tt, (stopped zero, released self w))
  /\ VideoPlayer.player (stopped zero) = None
  /\ VideoPlayer.surface (stopped zero) = None
  /\ VideoPlayer.has_finished (stopped zero) = true
  /\ (forall mp, VideoPlayer.player self = Some mp ->
        closed (released self w) = (closed w ++ [mp])%list)
  /\ stop (stopped zero, released self w)
     = (Return tt, (stopped zero, released self w))
  /\ (forall ticks,
        plays lt add zero env ticks (stopped zero, released self w)
        = (Return (repeat PyNone (List.length ticks)),
           (stopped zero, released self w)))
  /\ truthy PyNone = false.
Proof.
  split; [apply stop_eq|].
  do 3 (split; [reflexivity|]).
  split; [intros mp H; unfold released; rewrite H; reflexivity|].
  split; [rewrite stop_eq; reflexivity|].
  split; [|reflexivity].
  intros ticks. apply plays_idle. intros t g _. rewrite play_eq. reflexivity.
Qed.

(** [play] returns [True] only out of [display_it], on a session that
    holds a decoder. *)
Lemma play_true_inv (now : T) (got : VideoPlayer.get_frame_result)
    (self : Session) (w : World) (s' : Session * World) :
  play now got (self, w) = (Return PyTrue, s') ->
  VideoPlayer.player self <> None
  /\ ((VideoPlayer.image self <> None
       /\ lt now (VideoPlayer.wait self) = false
       /\ display_it (self, w) = (Return PyTrue, s'))
      \/ (exists img pts val,
            VideoPlayer.image self = None
            /\ got = VideoPlayer.Frame img pts val
            /\ lt zero val = false
            /\ display_it (VideoPlayer.set_image (Some img) self, w)
               = (Return PyTrue, s'))).
Proof.
  rewrite play_eq.
  destruct (VideoPlayer.player self) as [mp|]; [|discriminate].
  intros H. split; [discriminate|].
  destruct (VideoPlayer.image self) as [im|].
  - left. destruct (lt now (VideoPlayer.wait self)); [discriminate|].
    repeat split; [discriminate|exact H].
  - right. destruct got as [| |v|img pts val]; try discriminate.
    destruct (lt zero val) eqn:Hv; [discriminate|].
    exists img, pts, val. repeat split; assumption.
Qed.

Lemma display_it_true_inv (self : Session) (w : World) (s' : Session * World) :
  display_it (self, w) = (Return PyTrue, s') ->
  exists pic, s' = (VideoPlayer.set_image None self, blitted pic w).
Proof.
  intros H.
  destruct (display_it_cases self w) as [[pic [_ H']]|[e [_ H']]];
    rewrite H' in H; [|discriminate].
  exists pic. congruence.
Qed.

(** However the display step ends, it returns, and it returns [True] only
    with one more blit on the display. *)
Lemma display_it_returns (self : Session) (w : World) :
  exists r self' w',
    display_it (self, w) = (Return r, (self', w'))
    /\ (r = PyTrue \/ r = PyNone)
    /\ (r = PyTrue ->
        exists pic dest,
          w' = blitted pic w
          /\ drawn (display w') = (drawn (display w) ++ [Blit pic dest])%list).
Proof.
  destruct (display_it_cases self w) as [[pic [_ H]]|[e [_ H]]];
    rewrite H; do 3 eexists; (split; [reflexivity|]).
  - split; [now left|]. intros _. exists pic.
    exists (fst (get_size (display w)) / 2 - fst (pic_size pic) / 2,
            snd (get_size (display w)) / 2 - snd (pic_size pic) / 2).
    split; [reflexivity|].
    unfold blitted, centerblit, modify. cbn [snd].
    destruct (get_size (display w)), (pic_size pic). reflexivity.
  - split; [now right|]. discriminate.
Qed.

(** Once the decoder has answered, [play] returns. *)
Lemma play_returns (now : T) (got : VideoPlayer.get_frame_result)
    (self : Session) (w : World) :
  exists r self' w',
    play now got (self, w) = (Return r, (self', w'))
    /\ (r = PyTrue \/ r = PyNone)
    /\ (r = PyTrue ->
        exists pic dest,
          w' = blitted pic w
          /\ drawn (display w') = (drawn (display w) ++ [Blit pic dest])%list).
Proof.
  rewrite play_eq.
  destruct (VideoPlayer.player self);
    [|do 3 eexists; split; [reflexivity|split; [now right|discriminate]]].
  destruct (VideoPlayer.image self).
  - destruct (lt now (VideoPlayer.wait self)); [|apply display_it_returns].
    do 3 eexists; split; [reflexivity|split; [now right|discriminate]].
  - destruct got as [| |v|img pts val];
      try (do 3 eexists; split; [reflexivity|split; [now right|discriminate]]).
    destruct (lt zero val); [|apply display_it_returns].
    do 3 eexists; split; [reflexivity|split; [now right|discriminate]].
Qed.

(** When the decoder answers, [play_asking] is [play] on the answer. *)
Lemma play_asking_ok (now : T) (got : VideoPlayer.get_frame_result)
    (s : Session * World) :
  play_asking now (Ok got) s = play now got s.
Proof.
  unfold VideoPlayer.play_asking, VideoPlayer.play, bind, lift, ret.
  destruct (VideoPlayer.self_get VideoPlayer.player s) as [[r| |] s1];
    [|reflexivity|reflexivity].
  destruct r; [|reflexivity].
  destruct (VideoPlayer.self_get VideoPlayer.image s1) as [[r| |] s2];
    [|reflexivity|reflexivity].
  destruct r; reflexivity.
Qed.

(** On a tick where the decoder is not asked, what it would have done does
    not matter. *)
Lemma play_asking_unasked (now : T)
    (asked : result VideoPlayer.get_frame_result) (self : Session)
    (w : World) :
  VideoPlayer.player self = None \/ VideoPlayer.image self <> None ->
  play_asking now asked (self, w) = play now VideoPlayer.Eof (self, w).
Proof.
  intros H.
  unfold VideoPlayer.play_asking, VideoPlayer.play, bind,
    VideoPlayer.self_get, gets.
  cbn [fst snd].
  destruct (VideoPlayer.player self) as [mp|]; [|reflexivity].
  cbn [fst snd].
  destruct (VideoPlayer.image self) as [im|]; [reflexivity|].
  destruct H as [H|H]; [discriminate|contradiction].
Qed.

(** An exception of [get_frame()] leaves [play] with nothing changed. *)
Lemma play_asking_error (now : T) (e : exn) (self : Session) (w : World) :
  VideoPlayer.player self <> None ->
  VideoPlayer.image self = None ->
  play_asking now (Error e) (self, w) = (Raise e, (self, w)).
Proof.
  intros Hp Hi.
  unfold VideoPlayer.play_asking, bind, VideoPlayer.self_get, gets.
  cbn [fst snd].
  destruct (VideoPlayer.player self) as [mp|]; [|contradiction].
  cbn [fst snd]. rewrite Hi. reflexivity.
Qed.


(** C4 (amended): a [play()] that returns [True] has blitted one picture
    and leaves the session with no stored frame and its decoder, so the next
    call asks for a frame; the decoder handle, the surface reference, the
    finished flag and also the deadline [wait] are as they were before the
    call ([wait] is not reset). *)
Theorem display_clears_frame_only (now : T)
    (got : VideoPlayer.get_frame_result) (self self' : Session)
    (w w' : World) :
  play now got (self, w) = (Return PyTrue, (self', w')) ->
  VideoPlayer.image self' = None
  /\ VideoPlayer.player self' = VideoPlayer.player self
  /\ VideoPlayer.player self' <> None
  /\ VideoPlayer.surface self' = VideoPlayer.surface self
  /\ VideoPlayer.finished self' = VideoPlayer.finished self
  /\ VideoPlayer.wait self' = VideoPlayer.wait self
  /\ exists pic, w' = blitted pic w.
Proof.
  intros H. destruct (play_true_inv _ _ _ _ _ H) as [Hp [[_ [_ Hd]]|Hd]].
  - destruct (display_it_true_inv _ _ _ Hd) as [pic E].
    injection E as -> ->. cbn.
    repeat split; try assumption. exists pic. reflexivity.
  - destruct Hd as [img [pts [val [_ [_ [_ Hd]]]]]].
    destruct (display_it_true_inv _ _ _ Hd) as [pic E].
    injection E as -> ->. cbn.
    repeat split; try assumption. exists pic. reflexivity.
Qed.

(** C1: on a tick where the decoder is asked and answers with a
    frame and a delay [d], the frame is stored. If [d > 0] the deadline
    [now + d] is set, nothing is drawn, and on every later tick whose time
    is before the deadline [play] changes nothing and returns [None]. If
    [d > 0] does not hold, the frame goes to the display step on the same
    tick: when rendering succeeds it is blitted and [play] returns [True],
    and when rendering raises the session is stopped instead. In every state
    that holds a stored frame, [play] returns [True] only on a tick whose
    time is not before the stored deadline. *)
Theorem frame_waits_for_deadline (now : T) (img : Image) (pts d : T)
    (self : Session) (w : World) :
  VideoPlayer.player self <> None ->
  VideoPlayer.image self = None ->
  let stored := VideoPlayer.set_image (Some img) self in
  let pending := VideoPlayer.set_wait (add now d) stored in
  (lt zero d = true ->
     play now (VideoPlayer.Frame img pts d) (self, w)
     = (Return PyNone, (pending, w))
     /\ VideoPlayer.image pending = Some img
     /\ VideoPlayer.wait pending = add now d
     /\ (forall ticks,
           (forall t g, In (t, g) ticks -> lt t (add now d) = true) ->
           plays lt add zero env ticks (pending, w)
           = (Return (repeat PyNone (List.length ticks)), (pending, w)))
     /\ (forall t g s',
           play t g (pending, w) = (Return PyTrue, s') ->
           lt t (add now d) = false))
  /\ (lt zero d = false ->
       play now (VideoPlayer.Frame img pts d) (self, w)
       = display_it (stored, w)
       /\ ((exists pic,
               render (stored, w) = (Return tt, (stored, blitted pic w))
               /\ play now (VideoPlayer.Frame img pts d) (self, w)
                  = (Return PyTrue, (self, blitted pic w)))
           \/ (exists e,
               render (stored, w) = (Raise e, (stored, w))
               /\ play now (VideoPlayer.Frame img pts d) (self, w)
                  = (Return PyNone,
                     (stopped zero,
                      released self (add_log (LogError e) w))))))
  /\ (forall (self0 : Session) w0 t g s',
        VideoPlayer.image self0 <> None ->
        play t g (self0, w0) = (Return PyTrue, s') ->
        lt t (VideoPlayer.wait self0) = false).
Proof.
  intros Hp Hi stored pending.
  assert (Hlate : forall (self0 : Session) w0 t g s',
             VideoPlayer.image self0 <> None ->
             play t g (self0, w0) = (Return PyTrue, s') ->
             lt t (VideoPlayer.wait self0) = false).
  { intros self0 w0 t g s' Him H.
    destruct (play_true_inv _ _ _ _ _ H) as [_ [[_ [Hl _]]|Hd]]; [exact Hl|].
    destruct Hd as [? [? [? [E _]]]]. contradiction. }
  destruct (VideoPlayer.player self) as [mp|] eqn:Epl; [clear Hp|contradiction].
  assert (Hplay : forall val,
    play now (VideoPlayer.Frame img pts val) (self, w)
    = if lt zero val
      then (Return PyNone,
            (VideoPlayer.set_wait (add now val) stored, w))
      else display_it (stored, w)).
  { intros val. rewrite play_eq, Epl, Hi. reflexivity. }
  split; [|split; [|exact Hlate]].
  - intros Hd. rewrite Hplay, Hd.
    split; [reflexivity|]. split; [reflexivity|]. split; [reflexivity|].
    split.
    + intros ticks Hall. apply plays_idle. intros t g Hin.
      rewrite play_eq. cbn. rewrite Epl. cbn. rewrite (Hall t g Hin).
      reflexivity.
    + intros t g s' H. apply (Hlate pending w t g s'); [discriminate|exact H].
  - intros Hd. rewrite Hplay, Hd. split; [reflexivity|].
    destruct (display_it_cases stored w) as [[pic [Hr H]]|[e [Hr H]]].
    + left. exists pic. split; [exact Hr|]. rewrite H. f_equal. f_equal.
      unfold stored. clear - Hi. destruct self as [p sf im wt fin].
      cbn in Hi. subst im. reflexivity.
    + right. exists e. split; [exact Hr|]. rewrite H.
      unfold released, stored. cbn. rewrite Epl. reflexivity.
Qed.

End PlaybackFacts.



(** Witness of [display_clears_frame_only]: a frame scheduled for time 5,
    shown at time 7. *)
Lemma display_clears_frame_only_witness :
  Scenario.play 7 VideoPlayer.Eof (Scenario.scheduled, Scenario.world [])
  = (Return PyTrue,
     (VideoPlayer.set_image None Scenario.scheduled,
      blitted {| pic_size := (1600, 900); pic_data := "pixels" |}
        (Scenario.world [])))
  /\ VideoPlayer.image (VideoPlayer.set_image None Scenario.scheduled) = None
  /\ VideoPlayer.wait (VideoPlayer.set_image None Scenario.scheduled)
     = VideoPlayer.wait Scenario.scheduled.
Proof.
  assert (H : Scenario.play 7 VideoPlayer.Eof
                (Scenario.scheduled, Scenario.world [])
              = (Return PyTrue,
                 (VideoPlayer.set_image None Scenario.scheduled,
                  blitted {| pic_size := (1600, 900); pic_data := "pixels" |}
                    (Scenario.world [])))) by reflexivity.
  split; [exact H|].
  pose proof (display_clears_frame_only Z.ltb Z.add 0 Scenario.env 7
                VideoPlayer.Eof Scenario.scheduled _ (Scenario.world []) _ H)
    as [Hi [_ [_ [_ [_ [Hw _]]]]]].
  split; [exact Hi|exact Hw].
Defined.

(** C4 as stated fails: after a frame scheduled for time 5 is shown at
    time 7, the stored frame is gone but the deadline still reads 5, not the
    reset value 0. *)
Lemma display_keeps_deadline :
  Scenario.play 7 VideoPlayer.Eof (Scenario.scheduled, Scenario.world [])
  = (Return PyTrue,
     (VideoPlayer.set_image None Scenario.scheduled,
      blitted {| pic_size := (1600, 900); pic_data := "pixels" |}
        (Scenario.world [])))
  /\ VideoPlayer.image (VideoPlayer.set_image None Scenario.scheduled) = None
  /\ VideoPlayer.wait (VideoPlayer.set_image None Scenario.scheduled) = 5
  /\ VideoPlayer.wait (VideoPlayer.set_image None Scenario.scheduled) <> 0.
Proof.
  split; [reflexivity|]. split; [reflexivity|]. split; [reflexivity|].
  discriminate.
Qed.

(** Witness of [frame_waits_for_deadline]: a fresh session, at time 10, is
    handed a frame to show 2 seconds later. *)
Lemma frame_waits_for_deadline_witness :
  VideoPlayer.player Scenario.fresh <> None
  /\ VideoPlayer.image Scenario.fresh = None
  /\ Scenario.play 10 (VideoPlayer.Frame Scenario.rgb_frame 0 2)
       (Scenario.fresh, Scenario.world [])
     = (Return PyNone,
        (VideoPlayer.set_wait 12
           (VideoPlayer.set_image (Some Scenario.rgb_frame) Scenario.fresh),
         Scenario.world [])).
Proof.
  assert (Hp : VideoPlayer.player Scenario.fresh <> None) by discriminate.
  assert (Hi : VideoPlayer.image Scenario.fresh = None) by reflexivity.
  split; [exact Hp|]. split; [exact Hi|].
  exact (proj1 (proj1 (frame_waits_for_deadline Z.ltb Z.add 0 Scenario.env 10
                         Scenario.rgb_frame 0 2 Scenario.fresh
                         (Scenario.world []) Hp Hi)
                  eq_refl)).
Defined.

(* ===================================================================== *)
(** ** Dicts and [random.choice] *)
(* ===================================================================== *)

Lemma dict_set_in (k v : string) (d : dict) (kv : string * string) :
  In kv (dict_set k v d) -> kv = (k, v) \/ In kv d.
Proof.
  induction d as [|[k' v'] d IH]; cbn.
  - intros [H|[]]. left. now symmetry.
  - destruct (String.eqb k' k).
    + intros [H|H]; [left; now symmetry|right; now right].
    + intros [H|H]; [right; now left|].
      destruct (IH H) as [E|E]; [now left|right; now right].
Qed.

Lemma dict_update_in (other d : dict) (kv : string * string) :
  In kv (dict_update d other) -> In kv d \/ In kv other.
Proof.
  unfold dict_update. revert d.
  induction other as [|[k v] other IH]; cbn; intros d H; [now left|].
  destruct (IH _ H) as [H'|H']; [|right; now right].
  destruct (dict_set_in _ _ _ _ H') as [E|E]; [right; left; now symmetry|now left].
Qed.

Lemma dict_get_in (k v : string) (d : dict) :
  dict_get k d = Some v -> In (k, v) d.
Proof.
  induction d as [|[k' v'] d IH]; cbn; [discriminate|].
  destruct (String.eqb_spec k' k) as [->|_].
  - intros [= ->]. now left.
  - intros H. right. now apply IH.
Qed.

Lemma dict_get_key (k : string) (d : dict) :
  In k (keys d) -> exists v, dict_get k d = Some v.
Proof.
  induction d as [|[k' v'] d IH]; cbn; [intros []|].
  destruct (String.eqb_spec k' k) as [->|Hne].
  - intros _. now exists v'.
  - intros [H|H]; [contradiction|now apply IH].
Qed.

Lemma choice_in (seq : list string) (r : nat) :
  seq <> [] -> In (choice seq r) seq.
Proof.
  intros H. unfold choice. apply nth_In.
  apply Nat.mod_upper_bound. destruct seq; [contradiction|discriminate].
Qed.

(** The loop leaves with an element of [seq] that differs from [last]. *)
Lemma choice_until_new_spec (seq : list string) (last : option string)
    (rs rs' : list nat) (x : string) :
  seq <> [] ->
  choice_until_new seq last rs = Some (x, rs') ->
  In x seq /\ last <> Some x.
Proof.
  intros Hne. induction rs as [|r rs IH]; cbn; [discriminate|].
  destruct (str_ne_opt (choice seq r) last) eqn:E.
  - intros [= <- <-]. split; [now apply choice_in|].
    destruct last as [y|]; [|discriminate]. cbn in E.
    intros [= ->]. rewrite String.eqb_refl in E. discriminate.
  - exact IH.
Qed.

(** The loop leaves at the first draw that gives something new. *)
Lemma choice_until_new_first (seq : list string) (last : option string)
    (r : nat) (rs : list nat) :
  str_ne_opt (choice seq r) last = true ->
  choice_until_new seq last (r :: rs) = Some (choice seq r, rs).
Proof. intros H. cbn. now rewrite H. Qed.

(** It does leave as soon as some draw gives something new. *)
Lemma choice_until_new_returns (seq : list string) (last : option string)
    (rs : list nat) :
  (exists r, In r rs /\ str_ne_opt (choice seq r) last = true) ->
  exists x rs', choice_until_new seq last rs = Some (x, rs').
Proof.
  induction rs as [|r rs IH]; intros [r0 [Hin Hr]]; [destruct Hin|].
  cbn. destruct (str_ne_opt (choice seq r) last) eqn:E; [eauto|].
  apply IH. destruct Hin as [->|Hin]; [congruence|eauto].
Qed.

Lemma dict_get_set (k k' v : string) (d : dict) :
  dict_get k (dict_set k' v d)
  = if String.eqb k' k then Some v else dict_get k d.
Proof.
  induction d as [|[k0 v0] d IH]; cbn.
  - reflexivity.
  - destruct (String.eqb_spec k0 k') as [->|Hne]; cbn.
    + destruct (String.eqb k' k); reflexivity.
    + rewrite IH. destruct (String.eqb_spec k0 k) as [->|Hne'];
        [|reflexivity].
      destruct (String.eqb_spec k' k) as [->|_]; [contradiction|reflexivity].
Qed.

(** A lookup after [d.update(other)]: the last pair of [other] under the
    key, else what [d] had. *)
Lemma dict_get_update (k : string) (other d : dict) :
  dict_get k (dict_update d other)
  = match dict_get k (rev other) with
    | Some v => Some v
    | None => dict_get k d
    end.
Proof.
  unfold dict_update. revert d.
  induction other as [|[k' v'] other IH]; intros d; cbn; [reflexivity|].
  rewrite IH, dict_get_set.
  assert (A : forall l1 l2, dict_get k (l1 ++ l2)%list
              = match dict_get k l1 with
                | Some v => Some v
                | None => dict_get k l2
                end).
  { induction l1 as [|[a b] l1 IH1]; intros l2; cbn; [reflexivity|].
    destruct (String.eqb a k); [reflexivity|apply IH1]. }
  rewrite A. cbn. destruct (dict_get k (rev other)); [reflexivity|].
  destruct (String.eqb k' k); reflexivity.
Qed.

(** A lookup in pairs [(f, g f)]. *)
Lemma dict_get_graph (g : string -> string) (k : string) (l : list string) :
  dict_get k (map (fun f => (f, g f)) l)
  = if existsb (String.eqb k) l then Some (g k) else None.
Proof.
  induction l as [|a l IH]; cbn; [reflexivity|].
  rewrite (String.eqb_sym k a).
  destruct (String.eqb_spec a k) as [->|_]; [reflexivity|exact IH].
Qed.

Lemma existsb_rev (f : string -> bool) (l : list string) :
  existsb f (rev l) = existsb f l.
Proof.
  apply eq_true_iff_eq. rewrite !existsb_exists.
  split; intros [x [Hin Hx]]; exists x; split; try assumption;
    now apply in_rev in Hin.
Qed.

(* ===================================================================== *)
(** ** The music selector *)
(* ===================================================================== *)

Section MusicFacts.

Variable env : Env.

Local Abbreviation catalog := (music_catalog env).

(** Every entry of the dict of one directory pairs a listed name that has
    the extension [mp4] with that name joined to the directory. *)
Lemma music_in_entries (mdir f path : string) :
  In (f, path) (music_in env mdir) ->
  path = OsPath.join mdir f
  /\ In f (listdir_if_isdir env mdir)
  /\ extension f = "mp4".
Proof.
  unfold music_in, dict_of. intros H.
  apply dict_update_in in H. destruct H as [[]|H].
  apply in_map_iff in H. destruct H as [f' [[= <- <-] H]].
  apply filter_In in H. destruct H as [Hin He].
  apply String.eqb_eq in He. auto.
Qed.

Lemma music_catalog_entries (f path : string) :
  In (f, path) catalog ->
  exists mdir,
    In mdir (music_dirs env)
    /\ path = OsPath.join mdir f
    /\ In f (listdir_if_isdir env mdir)
    /\ extension f = "mp4".
Proof.
  unfold music_catalog.
  assert (G : forall dirs acc,
    In (f, path) (fold_left (fun music mdir =>
                               dict_update music (music_in env mdir)) dirs acc) ->
    In (f, path) acc
    \/ exists mdir, In mdir dirs /\ In (f, path) (music_in env mdir)).
  { induction dirs as [|mdir dirs IH]; cbn; intros acc H; [now left|].
    destruct (IH _ H) as [H'|[m [Hm H']]].
    - apply dict_update_in in H'. destruct H' as [H'|H']; [now left|].
      right. exists mdir. split; [now left|exact H'].
    - right. exists m. split; [now right|exact H']. }
  intros H. destruct (G _ _ H) as [[]|[mdir [Hm H']]].
  exists mdir. split; [exact Hm|]. now apply music_in_entries.
Qed.

(** [random_music], branch by branch. *)
Lemma random_music_eq (w : World) :
  random_music env w =
  let w1 := add_log (LogDebugMusicFound (List.length catalog)) w in
  match catalog with
  | [] => (Raise (Exn FileNotFoundError "No music found!"), w1)
  | [(f, path)] => (Return path, set_last_music (Some path) w1)
  | _ =>
      match choice_until_new (keys catalog) (_last_music w) (draws w) with
      | None => (Starved, set_draws [] w1)
      | Some (video, rs') =>
          match dict_get video catalog with
          | Some path =>
              (Return path, set_last_music (Some path) (set_draws rs' w1))
          | None => (Raise (Exn KeyError video), set_draws rs' w1)
          end
      end
  end.
Proof.
  unfold random_music. destruct catalog as [|[f path] [|kv rest]].
  - reflexivity.
  - cbn. rewrite String.eqb_refl. reflexivity.
  - cbn [List.length Nat.eqb].
    unfold bind, gets, modify, random_choice_until_new.
    cbn [draws _last_music add_log].
    destruct (choice_until_new _ _ _) as [[video rs']|]; [|reflexivity].
    destruct (dict_get video _); reflexivity.
Qed.

(** A key the loop can give is a key of the dict: [music[video]] never
    raises [KeyError]. *)
Lemma random_music_no_KeyError (last : option string) (rs rs' : list nat)
    (video : string) :
  catalog <> [] ->
  choice_until_new (keys catalog) last rs = Some (video, rs') ->
  exists path, dict_get video catalog = Some path.
Proof.
  intros Hne H. apply dict_get_key.
  apply (choice_until_new_spec _ _ _ _ _) in H; [tauto|].
  unfold keys. destruct catalog; [contradiction|discriminate].
Qed.

(** C10: when [random_music] returns a path, the global [_last_music]
    holds that same path, and the path is the value the catalog keeps under
    some file name [f]: [f] joined to one of the scanned directories, not
    [f] itself. *)
Theorem random_music_remembers_path (w w' : World) (path : string) :
  random_music env w = (Return path, w') ->
  _last_music w' = Some path
  /\ exists f mdir,
       dict_get f catalog = Some path
       /\ In mdir (music_dirs env)
       /\ path = OsPath.join mdir f.
Proof.
  rewrite random_music_eq. cbv zeta.
  assert (G : forall f, dict_get f catalog = Some path ->
            exists f mdir, dict_get f catalog = Some path
                           /\ In mdir (music_dirs env)
                           /\ path = OsPath.join mdir f).
  { intros f Hf. pose proof (dict_get_in _ _ _ Hf) as Hin.
    destruct (music_catalog_entries _ _ Hin) as [mdir [Hm [Hj _]]].
    exists f, mdir. auto. }
  destruct catalog as [|[f p] [|kv rest]] eqn:Ec; [discriminate| |].
  - intros [= -> <-]. split; [reflexivity|].
    apply (G f). cbn. now rewrite String.eqb_refl.
  - destruct (choice_until_new _ _ _) as [[video rs']|]; [|discriminate].
    destruct (dict_get video _) as [p'|] eqn:Eg; [|discriminate].
    intros [= -> <-]. split; [reflexivity|]. now apply (G video).
Qed.

(** A lookup in pairs whose value is [g] of the key. *)
Lemma dict_get_graphlike (g : string -> string) (k : string) (l : dict) :
  (forall a b, In (a, b) l -> b = g a) ->
  dict_get k l = if existsb (String.eqb k) (keys l) then Some (g k) else None.
Proof.
  induction l as [|[a b] l IH]; intros H; cbn; [reflexivity|].
  rewrite (String.eqb_sym k a).
  destruct (String.eqb_spec a k) as [->|_].
  - now rewrite (H k b (or_introl eq_refl)).
  - apply IH. intros a' b' Hin. apply H. now right.
Qed.

Lemma music_in_get (mdir f : string) :
  dict_get f (music_in env mdir)
  = if listed env mdir f then Some (OsPath.join mdir f) else None.
Proof.
  unfold music_in, dict_of. rewrite dict_get_update. cbn [dict_get].
  rewrite <- map_rev, (dict_get_graph (OsPath.join mdir)), existsb_rev.
  unfold listed. now destruct (existsb _ _).
Qed.

Lemma music_in_get_rev (mdir f : string) :
  dict_get f (rev (music_in env mdir))
  = if listed env mdir f then Some (OsPath.join mdir f) else None.
Proof.
  rewrite <- music_in_get.
  rewrite (dict_get_graphlike (OsPath.join mdir) f (rev (music_in env mdir))).
  - rewrite (dict_get_graphlike (OsPath.join mdir) f (music_in env mdir)).
    + unfold keys. now rewrite map_rev, existsb_rev.
    + intros a b Hin. now apply music_in_entries in Hin.
  - intros a b Hin. apply in_rev in Hin. now apply music_in_entries in Hin.
Qed.

(** Later directories win: a name is looked up in the configured music
    directory first, then in the user's, then in the built-in one. *)
Lemma music_catalog_get (f : string) :
  dict_get f catalog
  = if listed env (MUSICDIR (OPTIONS env)) f
    then Some (OsPath.join (MUSICDIR (OPTIONS env)) f)
    else if listed env (OsPath.join (USERDATA env) "music") f
    then Some (OsPath.join (OsPath.join (USERDATA env) "music") f)
    else if listed env (OsPath.join (DATADIR (OPTIONS env)) "music") f
    then Some (OsPath.join (OsPath.join (DATADIR (OPTIONS env)) "music") f)
    else None.
Proof.
  unfold music_catalog, music_dirs. cbn [fold_left].
  rewrite !dict_get_update, !music_in_get_rev. cbn [dict_get].
  repeat (destruct (listed env _ f); try reflexivity).
Qed.

End MusicFacts.

(** Witness of [random_music_remembers_path]: two songs, the generator
    giving index 1. *)
Lemma random_music_remembers_path_witness :
  random_music Scenario.env (Scenario.world [1%nat])
  = (Return "/data/music/b.mp4",
     set_last_music (Some "/data/music/b.mp4")
       (set_draws [] (add_log (LogDebugMusicFound 2) (Scenario.world [1%nat]))))
  /\ _last_music
       (set_last_music (Some "/data/music/b.mp4")
          (set_draws [] (add_log (LogDebugMusicFound 2) (Scenario.world [1%nat]))))
     = Some "/data/music/b.mp4".
Proof.
  assert (H : random_music Scenario.env (Scenario.world [1%nat])
              = (Return "/data/music/b.mp4",
                 set_last_music (Some "/data/music/b.mp4")
                   (set_draws []
                      (add_log (LogDebugMusicFound 2) (Scenario.world [1%nat])))))
    by reflexivity.
  split; [exact H|].
  exact (proj1 (random_music_remembers_path Scenario.env _ _ _ H)).
Defined.

(* ===================================================================== *)
(** ** No music found *)
(* ===================================================================== *)

Section NotFound.

Context {T : Type} (zero : T).
Variable env : Env.

Local Abbreviation catalog := (music_catalog env).
Local Abbreviation NoMusic := (Exn FileNotFoundError "No music found!").

(** C7: [random_music] raises exactly when the catalog is empty, and what
    it raises is then [FileNotFoundError("No music found!")]; the catalog
    looks a name up in the configured music directory first, then the
    user's, then the built-in one, so a later directory overrides an earlier
    one; and the Return key, with no player and an empty catalog, logs the
    error, raises nothing and leaves [main]'s variables (no player, [done],
    [dirty]) as they were. *)
Theorem no_music_is_logged_not_fatal :
  (forall w, (exists e w', random_music env w = (Raise e, w')) <-> catalog = [])
  /\ (forall w e w',
        random_music env w = (Raise e, w') ->
        e = NoMusic /\ w' = add_log (LogDebugMusicFound 0) w)
  /\ (forall f,
        dict_get f catalog
        = if listed env (MUSICDIR (OPTIONS env)) f
          then Some (OsPath.join (MUSICDIR (OPTIONS env)) f)
          else if listed env (OsPath.join (USERDATA env) "music") f
          then Some (OsPath.join (OsPath.join (USERDATA env) "music") f)
          else if listed env (OsPath.join (DATADIR (OPTIONS env)) "music") f
          then Some (OsPath.join (OsPath.join (DATADIR (OPTIONS env)) "music") f)
          else None)
  /\ (forall (l : @Main.locals T) w,
        Main.player l = None ->
        catalog = [] ->
        Main.on_event zero env (KEYUP pygame.K_RETURN) (l, w)
        = (Return tt,
           (l, add_log (LogError NoMusic) (add_log (LogDebugMusicFound 0) w)))).
Proof.
  assert (R : forall w e w',
             random_music env w = (Raise e, w') ->
             catalog = [] /\ e = NoMusic
             /\ w' = add_log (LogDebugMusicFound 0) w).
  { intros w e w'. rewrite random_music_eq. cbv zeta.
    destruct catalog as [|[f p] [|kv rest]] eqn:Ec.
    - intros [= <- <-]. auto.
    - discriminate.
    - destruct (choice_until_new _ _ _) as [[video rs']|] eqn:Ech;
        [|discriminate].
      rewrite <- Ec in Ech.
      destruct (random_music_no_KeyError env _ _ _ _
                  ltac:(rewrite Ec; discriminate) Ech) as [path Hp].
      rewrite Ec in Hp. rewrite Hp. discriminate. }
  split; [|split; [|split]].
  - intros w. split.
    + intros [e [w' H]]. now apply R in H.
    + intros Ec. exists NoMusic, (add_log (LogDebugMusicFound 0) w).
      rewrite random_music_eq, Ec. reflexivity.
  - intros w e w' H. apply R in H. tauto.
  - apply music_catalog_get.
  - intros l w Hpl Ec. cbn [Main.on_event]. cbn [Z.eqb pygame.K_RETURN
      pygame.K_ESCAPE pygame.K_SPACE Pos.eqb].
    unfold Main.on_return, bind, Main.local_get, gets. cbn [fst snd].
    rewrite Hpl. unfold try_except_FileNotFoundError, bind, in_world.
    cbn [fst snd]. rewrite random_music_eq, Ec. cbn.
    destruct l; reflexivity.
Qed.

End NotFound.

(* ===================================================================== *)
(** ** The background selector *)
(* ===================================================================== *)

Section BackgroundFacts.

Variable env : Env.

(** What [random_background] does once it holds [bg]. *)
Lemma draw_background_eq (bg : string) (w : World) :
  (surface_fill Display (BG_COLOR (OPTIONS env)) ;;;
   sz <- gets (fun w => get_size (display w)) ;;
   image <- load_image env bg sz ;;
   centerblit image Display ;;;
   modify (set_current_background (Some bg))) w
  = match image_load env bg with
    | Error e => (Raise e, filled env w)
    | Ok image =>
        match resize env image (get_size (display w)) with
        | Error e => (Raise e, filled env w)
        | Ok pic => (Return tt, painted env bg pic w)
        end
    end.
Proof.
  unfold bind, gets, load_image, lift, painted, filled, blitted.
  cbn [surface_fill modify snd display set_display get_size].
  destruct (image_load env bg) as [image|e]; [|reflexivity].
  cbn [bind ret raise]. unfold bind, ret.
  destruct (resize env image (get_size (display w))) as [pic|e]; reflexivity.
Qed.

(** [random_background], branch by branch. *)
Lemma random_background_eq (w : World) :
  random_background env Display w =
  match listing env (bgdir env) with
  | None => (Raise (Exn FileNotFoundError (bgdir env)), w)
  | Some names =>
      let draw bg w1 :=
        match image_load env bg with
        | Error e => (Raise e, filled env w1)
        | Ok image =>
            match resize env image (get_size (display w1)) with
            | Error e => (Raise e, filled env w1)
            | Ok pic => (Return tt, painted env bg pic w1)
            end
        end in
      match backgrounds_in (bgdir env) names with
      | [] => (Return tt, w)
      | [bg] => draw bg w
      | bgs =>
          match choice_until_new bgs (_current_background w) (draws w) with
          | None => (Starved, set_draws [] w)
          | Some (bg, rs') => draw bg (set_draws rs' w)
          end
      end
  end.
Proof.
  unfold random_background. fold (bgdir env). unfold listdir.
  destruct (listing env (bgdir env)) as [names|]; [|reflexivity].
  unfold bind at 1. cbn [ret]. cbv zeta.
  destruct (backgrounds_in (bgdir env) names) as [|bg [|bg' rest]].
  - reflexivity.
  - cbn [List.length Nat.eqb nth]. unfold bind at 1. cbn [ret].
    apply draw_background_eq.
  - cbn [List.length Nat.eqb]. unfold bind at 1. unfold bind at 1.
    cbn [gets]. unfold random_choice_until_new.
    destruct (choice_until_new _ _ _) as [[bg0 rs']|]; [|reflexivity].
    apply draw_background_eq.
Qed.

End BackgroundFacts.

(* ===================================================================== *)
(** ** What the selectors choose *)
(* ===================================================================== *)

Section SelectionFacts.

Variable env : Env.

(** C6: with exactly one entry in the catalog, [random_music] returns that
    entry's path and remembers it, whatever [_last_music] and the random
    generator hold; with exactly one recognized image, [random_background]
    uses no random draw and works on that image whatever
    [_current_background] holds: it fills the display, and then either draws
    the image and remembers its path, or passes on what loading it raised. *)
Theorem single_entry_is_always_chosen :
  (forall f path,
      music_catalog env = [(f, path)] ->
      forall w,
        random_music env w
        = (Return path,
           set_last_music (Some path) (add_log (LogDebugMusicFound 1) w)))
  /\ (forall names bg,
        listing env (bgdir env) = Some names ->
        backgrounds_in (bgdir env) names = [bg] ->
        forall w,
          (forall image pic,
              image_load env bg = Ok image ->
              resize env image (get_size (display w)) = Ok pic ->
              random_background env Display w
              = (Return tt, painted env bg pic w)
              /\ _current_background (painted env bg pic w) = Some bg
              /\ draws (painted env bg pic w) = draws w)
          /\ (forall e,
                image_load env bg = Error e
                \/ (exists image,
                      image_load env bg = Ok image
                      /\ resize env image (get_size (display w)) = Error e) ->
                random_background env Display w = (Raise e, filled env w))).
Proof.
  split.
  - intros f path Ec w. rewrite random_music_eq, Ec. reflexivity.
  - intros names bg Hl Hb w. rewrite random_background_eq, Hl, Hb. cbv zeta.
    split.
    + intros image pic Hi Hr. rewrite Hi, Hr.
      split; [reflexivity|].
      unfold painted, blitted, filled, centerblit, surface_fill, modify.
      cbn [snd display set_display get_size].
      destruct (get_size (display w)), (pic_size pic).
      split; reflexivity.
    + intros e [Hi|[image [Hi Hr]]].
      * now rewrite Hi.
      * now rewrite Hi, Hr.
Qed.

(** With [_last_music] not among the keys, the loop of [random_music] takes
    its first draw, whatever was returned before. *)
Lemma random_music_takes_first_draw (w : World) (r : nat) (rs : list nat) :
  (2 <= List.length (music_catalog env))%nat ->
  draws w = r :: rs ->
  (forall k, In k (keys (music_catalog env)) -> _last_music w <> Some k) ->
  exists path,
    dict_get (choice (keys (music_catalog env)) r) (music_catalog env)
    = Some path
    /\ random_music env w
       = (Return path,
          set_last_music (Some path)
            (set_draws rs
               (add_log (LogDebugMusicFound (List.length (music_catalog env)))
                  w))).
Proof.
  intros Hlen Hd Hk. rewrite random_music_eq. cbv zeta.
  assert (Hne : keys (music_catalog env) <> []).
  { unfold keys. destruct (music_catalog env); [cbn in Hlen; lia|discriminate]. }
  pose proof (choice_in _ r Hne) as Hin.
  destruct (dict_get_key _ _ Hin) as [path Hp].
  exists path. split; [exact Hp|].
  assert (Hfirst : choice_until_new (keys (music_catalog env)) (_last_music w)
                     (draws w)
                   = Some (choice (keys (music_catalog env)) r, rs)).
  { rewrite Hd. apply choice_until_new_first.
    specialize (Hk _ Hin). destruct (_last_music w) as [y|]; [|reflexivity].
    unfold str_ne_opt.
    destruct (String.eqb_spec (choice (keys (music_catalog env)) r) y);
      [subst; contradiction|reflexivity]. }
  destruct (music_catalog env) as [|kv1 [|kv2 rest]] eqn:Ec;
    [cbn in Hlen; lia|cbn in Hlen; lia|].
  rewrite Hfirst, Hp. destruct kv1. reflexivity.
Qed.

(** With two images or more, a [random_background] that returns has
    drawn and remembered an image other than the one remembered before. *)
Lemma random_background_never_repeats (names : list string) (w w' : World) :
  listing env (bgdir env) = Some names ->
  (2 <= List.length (backgrounds_in (bgdir env) names))%nat ->
  random_background env Display w = (Return tt, w') ->
  exists bg,
    _current_background w' = Some bg
    /\ In bg (backgrounds_in (bgdir env) names)
    /\ _current_background w <> Some bg.
Proof.
  intros Hl Hlen. rewrite random_background_eq, Hl. cbv zeta.
  destruct (backgrounds_in (bgdir env) names) as [|b1 [|b2 rest]] eqn:Eb;
    [cbn in Hlen; lia|cbn in Hlen; lia|].
  destruct (choice_until_new _ _ _) as [[bg rs']|] eqn:Ech; [|discriminate].
  apply choice_until_new_spec in Ech; [|discriminate].
  destruct (image_load env bg) as [image|e]; [|discriminate].
  destruct (resize env image _) as [pic|e]; [|discriminate].
  intros [= <-]. exists bg. split; [|tauto].
  unfold painted, blitted, filled, centerblit, surface_fill, modify.
  cbn [snd display set_display get_size set_draws].
  destruct (get_size (display w)), (pic_size pic). reflexivity.
Qed.

(** X1: two calls of [random_background] in a row that both return, over
    the same directory holding two recognized images or more, never
    remember (and so never show) the same image. *)
Lemma random_background_consecutive (names : list string) (w w1 w2 : World) :
  listing env (bgdir env) = Some names ->
  (2 <= List.length (backgrounds_in (bgdir env) names))%nat ->
  random_background env Display w = (Return tt, w1) ->
  random_background env Display w1 = (Return tt, w2) ->
  _current_background w2 <> _current_background w1.
Proof.
  intros Hl Hlen H1 H2.
  destruct (random_background_never_repeats _ _ _ Hl Hlen H2)
    as [bg [E [_ Hne]]].
  congruence.
Qed.

(** The loop of [random_background] ends as soon as a draw gives another
    image, and the call returns when pygame can load that image. *)
Lemma random_background_returns (names : list string) (w : World) :
  listing env (bgdir env) = Some names ->
  (2 <= List.length (backgrounds_in (bgdir env) names))%nat ->
  (exists r,
      In r (draws w)
      /\ str_ne_opt (choice (backgrounds_in (bgdir env) names) r)
           (_current_background w) = true) ->
  (forall bg sz, exists pic, load_image env bg sz w = (Return pic, w)) ->
  exists w', random_background env Display w = (Return tt, w').
Proof.
  intros Hl Hlen Hex Hload. rewrite random_background_eq, Hl. cbv zeta.
  destruct (backgrounds_in (bgdir env) names) as [|b1 [|b2 rest]] eqn:Eb;
    [cbn in Hlen; lia|cbn in Hlen; lia|].
  destruct (choice_until_new_returns _ _ _ Hex) as [bg [rs' ->]].
  destruct (Hload bg (get_size (display (set_draws rs' w)))) as [pic Hp].
  unfold load_image, bind, lift in Hp.
  destruct (image_load env bg) as [image|e]; [|discriminate].
  cbn [ret display set_draws] in Hp. cbn [display set_draws].
  destruct (resize env image (get_size (display w))) as [pic'|e];
    [eauto|discriminate].
Qed.

(** Without the background directory, [random_background] raises what
    [os.listdir] raises. *)
Lemma random_background_missing_dir (w : World) :
  listing env (bgdir env) = None ->
  random_background env Display w
  = (Raise (Exn FileNotFoundError (bgdir env)), w).
Proof. intros H. now rewrite random_background_eq, H. Qed.

(** X2: with the background directory there and no recognized image in
    it, [random_background] returns and changes nothing: the display, the
    remembered background, the log and the random draws are as before. *)
Lemma random_background_no_images (names : list string) (w : World) :
  listing env (bgdir env) = Some names ->
  backgrounds_in (bgdir env) names = [] ->
  random_background env Display w = (Return tt, w).
Proof. intros Hl Hb. now rewrite random_background_eq, Hl, Hb. Qed.

End SelectionFacts.

(* ===================================================================== *)
(** ** [extension] and the recognized files *)
(* ===================================================================== *)

Lemma occurs_app (c : ascii) (a b : string) :
  occurs c (a ++ b) = occurs c a || occurs c b.
Proof.
  induction a as [|x a IH]; cbn; [reflexivity|].
  now rewrite IH, orb_assoc.
Qed.

Lemma length_app (a b : string) :
  String.length (a ++ b) = (String.length a + String.length b)%nat.
Proof. induction a as [|x a IH]; cbn; [reflexivity|now rewrite IH]. Qed.

Lemma app_assoc_str (a b c : string) : (a ++ b) ++ c = a ++ b ++ c.
Proof. induction a as [|x a IH]; cbn; [reflexivity|now rewrite IH]. Qed.

Lemma take_app (a b : string) : Py.take (String.length a) (a ++ b) = a.
Proof. induction a as [|x a IH]; cbn; [now destruct b|now rewrite IH]. Qed.

Lemma drop_app (a b : string) : Py.drop (String.length a) (a ++ b) = b.
Proof. induction a as [|x a IH]; cbn; [reflexivity|exact IH]. Qed.

Lemma rfind_from_none (c : ascii) (s : string) (i : Z) :
  occurs c s = false -> Py.rfind_from c s i = -1.
Proof.
  revert i. induction s as [|a s IH]; intros i; cbn; [reflexivity|].
  intros H. apply orb_false_iff in H. destruct H as [Ha Hs].
  rewrite (IH _ Hs), Ha. reflexivity.
Qed.

Lemma rfind_from_last (c : ascii) (a b : string) (i : Z) :
  0 <= i ->
  occurs c b = false ->
  Py.rfind_from c (a ++ String c b) i = i + Z.of_nat (String.length a).
Proof.
  revert i. induction a as [|x a IH]; intros i Hi Hb.
  - cbn. rewrite (rfind_from_none _ _ _ Hb), Ascii.eqb_refl. cbn. lia.
  - cbn [append Py.rfind_from String.length]. rewrite IH by (assumption || lia).
    destruct (Z.leb_spec 0 (i + 1 + Z.of_nat (String.length a))); lia.
Qed.

Lemma rfind_from_app_none (c : ascii) (a b : string) (i : Z) :
  occurs c b = false ->
  Py.rfind_from c (a ++ b) i = Py.rfind_from c a i.
Proof.
  intros Hb. revert i. induction a as [|x a IH]; intros i.
  - cbn. now apply rfind_from_none.
  - cbn. now rewrite IH.
Qed.

Lemma rfind_from_bound (c : ascii) (s : string) (i : Z) :
  0 <= i ->
  -1 <= Py.rfind_from c s i < i + Z.of_nat (String.length s).
Proof.
  revert i. induction s as [|a s IH]; intros i Hi.
  - cbn. lia.
  - cbn [Py.rfind_from String.length]. specialize (IH (i + 1) ltac:(lia)).
    destruct (Z.leb_spec 0 (Py.rfind_from c s (i + 1))); [lia|].
    destruct (Ascii.eqb a c); lia.
Qed.

(** A string that holds [c] splits at the last [c]. *)
Lemma occurs_split_last (c : ascii) (s : string) :
  occurs c s = true ->
  exists a b, s = a ++ String c b /\ occurs c b = false.
Proof.
  induction s as [|x s IH]; cbn; [discriminate|].
  destruct (occurs c s) eqn:Hs.
  - intros _. destruct (IH eq_refl) as [a [b [-> Hb]]].
    exists (String x a), b. now split.
  - rewrite orb_false_r. intros Hx. apply Ascii.eqb_eq in Hx. subst x.
    exists EmptyString, s. now split.
Qed.

(** Every path is a directory part, empty or ending with the separator,
    and a last component without separator. *)
Lemma path_split (f : string) :
  exists dir name,
    f = dir ++ name
    /\ (dir = "" \/ exists d, dir = d ++ "/")
    /\ occurs "/" name = false.
Proof.
  destruct (occurs "/" f) eqn:H.
  - destruct (occurs_split_last _ _ H) as [a [b [-> Hb]]].
    exists (a ++ "/"), b. rewrite app_assoc_str. cbn. eauto.
  - exists "", f. auto.
Qed.

(** The index of the last separator, plus one, is where the last component
    starts. *)
Lemma rfind_sep (dir name : string) :
  (dir = "" \/ exists d, dir = d ++ "/") ->
  occurs "/" name = false ->
  Py.rfind OsPath.sep (dir ++ name) + 1 = Z.of_nat (String.length dir).
Proof.
  unfold Py.rfind, OsPath.sep. intros [->|[d ->]] Hn.
  - cbn [append String.length]. now rewrite rfind_from_none.
  - rewrite app_assoc_str. cbn [append].
    rewrite rfind_from_last by (assumption || lia).
    rewrite length_app. cbn. lia.
Qed.

Lemma slice1_at (pre : string) (c : ascii) (rest : string) :
  Py.slice1 (pre ++ String c rest) (Z.of_nat (String.length pre))
  = String c EmptyString.
Proof.
  unfold Py.slice1. rewrite Nat2Z.id, drop_app. reflexivity.
Qed.

(** The loop of [_splitext] leaves early exactly when the part it scans is
    not made of dots only. *)
Lemma skip_leading_dots_spec (n pre rest : string) :
  OsPath.skip_leading_dots (pre ++ n ++ rest) (Z.of_nat (String.length pre))
    (String.length n)
  = negb (all_dots n).
Proof.
  revert pre. induction n as [|c n IH]; intros pre; [reflexivity|].
  cbn [OsPath.skip_leading_dots String.length append all_dots].
  rewrite slice1_at. unfold OsPath.extsep. cbn [String.eqb].
  destruct (Ascii.eqb c ".") eqn:Hc; cbn [andb negb]; [|reflexivity].
  specialize (IH (pre ++ String c EmptyString)).
  rewrite app_assoc_str, length_app in IH. cbn [append String.length] in IH.
  replace (Z.of_nat (String.length pre) + 1)
    with (Z.of_nat (String.length pre + 1)) by lia.
  exact IH.
Qed.

(** A last component without a dot has no extension. *)
Lemma splitext_no_dot (dir name : string) :
  (dir = "" \/ exists d, dir = d ++ "/") ->
  occurs "/" name = false ->
  occurs "." name = false ->
  OsPath.splitext (dir ++ name) = (dir ++ name, "").
Proof.
  intros Hdir Hsep Hdot. unfold OsPath.splitext. cbv zeta.
  pose proof (rfind_sep _ _ Hdir Hsep) as Hs.
  unfold Py.rfind at 2. unfold OsPath.extsep.
  rewrite (rfind_from_app_none _ dir name 0 Hdot).
  pose proof (rfind_from_bound "." dir 0 ltac:(lia)) as Hb.
  destruct (Z.ltb_spec (Py.rfind OsPath.sep (dir ++ name))
              (Py.rfind_from "." dir 0)); [lia|reflexivity].
Qed.

(** A last component [n.e], with no dot in [e], splits before that dot
    unless [n] is empty or made of dots. *)
Lemma splitext_dot (dir n e : string) :
  (dir = "" \/ exists d, dir = d ++ "/") ->
  occurs "/" (n ++ "." ++ e) = false ->
  occurs "." e = false ->
  OsPath.splitext (dir ++ n ++ "." ++ e)
  = if all_dots n then (dir ++ n ++ "." ++ e, "") else (dir ++ n, "." ++ e).
Proof.
  intros Hdir Hsep Hdot. unfold OsPath.splitext. cbv zeta.
  pose proof (rfind_sep _ _ Hdir Hsep) as Hs.
  assert (Hd : Py.rfind OsPath.extsep (dir ++ n ++ "." ++ e)
               = Z.of_nat (String.length dir + String.length n)).
  { unfold Py.rfind, OsPath.extsep. rewrite <- app_assoc_str.
    cbn [append]. rewrite rfind_from_last by (assumption || lia).
    rewrite length_app. lia. }
  rewrite Hd.
  destruct (Z.ltb_spec (Py.rfind OsPath.sep (dir ++ n ++ "." ++ e))
              (Z.of_nat (String.length dir + String.length n))); [|lia].
  rewrite Hs.
  replace (Z.to_nat (Z.of_nat (String.length dir + String.length n)
                     - Z.of_nat (String.length dir)))
    with (String.length n) by lia.
  rewrite skip_leading_dots_spec.
  destruct (all_dots n); cbn [negb]; [reflexivity|].
  rewrite Nat2Z.id, <- length_app, <- app_assoc_str.
  now rewrite take_app, drop_app.
Qed.

(** A letter that lowers to something else than a dot or a slash is
    neither. *)
Lemma lower_ascii_plain (c x : ascii) :
  Py.lower_ascii c = x ->
  x <> "."%char -> x <> "/"%char ->
  Ascii.eqb c "." = false /\ Ascii.eqb c "/" = false.
Proof.
  intros H Hd Hs. split.
  - destruct (Ascii.eqb_spec c "."%char) as [->|]; [|reflexivity].
    cbv in H. congruence.
  - destruct (Ascii.eqb_spec c "/"%char) as [->|]; [|reflexivity].
    cbv in H. congruence.
Qed.

Lemma lower_mp4_plain (e : string) :
  Py.lower e = "mp4" -> occurs "." e = false /\ occurs "/" e = false.
Proof.
  destruct e as [|c1 [|c2 [|c3 [|c4 e]]]]; cbn [Py.lower]; try discriminate.
  intros [= H1 H2 H3].
  destruct (lower_ascii_plain _ _ H1) as [A1 B1]; [discriminate..|].
  destruct (lower_ascii_plain _ _ H2) as [A2 B2]; [discriminate..|].
  destruct (lower_ascii_plain _ _ H3) as [A3 B3]; [discriminate..|].
  cbn [occurs]. rewrite A1, A2, A3, B1, B2, B3. split; reflexivity.
Qed.

(** C9 (amended): [extension] gives [mp4], which is what makes
    [random_music] keep a file, exactly for a path whose last component is a
    part that is not empty and not made of dots only, then a dot, then
    [mp4] in any letter case; so ['A.MP4'] is recognized, and a name with
    only dots before the final [.mp4] is not. *)
Theorem extension_recognizes_mp4 (f : string) :
  (extension f = "mp4" <->
   exists dir name e,
     f = dir ++ name ++ "." ++ e
     /\ (dir = "" \/ exists d, dir = d ++ "/")
     /\ occurs "/" name = false
     /\ all_dots name = false
     /\ Py.lower e = "mp4")
  /\ extension "A.MP4" = "mp4".
Proof.
  split; [|reflexivity]. split.
  - intros H. destruct (path_split f) as [dir [name [-> [Hdir Hsep]]]].
    destruct (occurs "." name) eqn:Hdot.
    + destruct (occurs_split_last _ _ Hdot) as [n [e [-> He]]].
      unfold extension in H. change (String "."%char e) with ("." ++ e) in *.
      rewrite (splitext_dot _ _ _ Hdir Hsep He) in H.
      destruct (all_dots n) eqn:Hn; [discriminate|].
      exists dir, n, e. rewrite occurs_app in Hsep.
      apply orb_false_iff in Hsep. cbn in H. tauto.
    + unfold extension in H.
      rewrite (splitext_no_dot _ _ Hdir Hsep Hdot) in H. discriminate.
  - intros [dir [name [e [-> [Hdir [Hsep [Hn He]]]]]]].
    destruct (lower_mp4_plain _ He) as [Hd1 Hs1].
    unfold extension. rewrite splitext_dot; try assumption.
    + rewrite Hn. exact He.
    + rewrite occurs_app, Hsep. cbn. exact Hs1.
Qed.

(** C9 as stated fails: [.mp4] ends with a dot and [mp4], and [extension]
    gives the empty string for it, so [random_music] does not keep it. *)
Lemma hidden_mp4_is_not_recognized :
  ends_with_dot_mp4 ".mp4"
  /\ extension ".mp4" = ""
  /\ filter (fun f => String.eqb (extension f) "mp4") [".mp4"; "A.MP4"]
     = ["A.MP4"].
Proof.
  split; [|split; reflexivity].
  exists "", "mp4". split; reflexivity.
Qed.

(* ===================================================================== *)
(** ** The selectors on concrete directories *)
(* ===================================================================== *)

(** Witness of [single_entry_is_always_chosen]: one song, already the last
    one played. *)
Lemma single_entry_is_always_chosen_witness :
  music_catalog (Scenario.env_with Scenario.fs_single)
  = [("a.mp4", "/data/music/a.mp4")]
  /\ random_music (Scenario.env_with Scenario.fs_single)
       (set_last_music (Some "/data/music/a.mp4") (Scenario.world []))
     = (Return "/data/music/a.mp4",
        set_last_music (Some "/data/music/a.mp4")
          (add_log (LogDebugMusicFound 1)
             (set_last_music (Some "/data/music/a.mp4") (Scenario.world [])))).
Proof.
  assert (H : music_catalog (Scenario.env_with Scenario.fs_single)
              = [("a.mp4", "/data/music/a.mp4")]) by reflexivity.
  split; [exact H|].
  exact (proj1 (single_entry_is_always_chosen
                  (Scenario.env_with Scenario.fs_single))
           "a.mp4" "/data/music/a.mp4" H
           (set_last_music (Some "/data/music/a.mp4") (Scenario.world []))).
Defined.

(** C5, where the code departs from it: over a catalog of two songs, with
    the random generator giving index 0 twice, two calls of [random_music]
    in a row return the same path. The loop compares the drawn key
    [a.mp4] with [_last_music], which holds the path [/data/music/a.mp4],
    so it never refuses a draw. *)
Theorem random_music_repeats_itself :
  List.length (music_catalog Scenario.env) = 2%nat
  /\ exists w1 w2,
       random_music Scenario.env (Scenario.world [0%nat; 0%nat])
       = (Return "/data/music/a.mp4", w1)
       /\ _last_music w1 = Some "/data/music/a.mp4"
       /\ random_music Scenario.env w1 = (Return "/data/music/a.mp4", w2).
Proof.
  split; [reflexivity|].
  eexists. eexists. split; [reflexivity|]. split; reflexivity.
Qed.

(** C8, where the code departs from it: without the background directory,
    [random_background] raises the [FileNotFoundError] of [os.listdir]
    instead of returning. *)
Theorem random_background_raises_without_directory :
  listing (Scenario.env_with Scenario.fs_none)
    (bgdir (Scenario.env_with Scenario.fs_none)) = None
  /\ random_background (Scenario.env_with Scenario.fs_none) Display
       (Scenario.world [])
     = (Raise (Exn FileNotFoundError "/data/backgrounds"), Scenario.world []).
Proof. split; reflexivity. Qed.

(** Two backgrounds, [x.png] shown last, the generator giving index 0 and
    then 1: the first draw is refused, [y.jpg] is shown. *)
Example random_background_skips_current :
  _current_background
    (snd (random_background Scenario.env Display
            (set_current_background (Some "/data/backgrounds/x.png")
               (Scenario.world [0%nat; 1%nat]))))
  = Some "/data/backgrounds/y.jpg".
Proof. reflexivity. Qed.

(** Witness of [no_music_is_logged_not_fatal]: the Return key with no
    player and no music directory. *)
Lemma no_music_is_logged_not_fatal_witness :
  Main.on_event 0 (Scenario.env_with Scenario.fs_none) (KEYUP pygame.K_RETURN)
    ({| Main.screen := Display; Main.done := false; Main.dirty := PyFalse;
        Main.player := None |}, Scenario.world [])
  = (Return tt,
     ({| Main.screen := Display; Main.done := false; Main.dirty := PyFalse;
         Main.player := None |},
      add_log (LogError (Exn FileNotFoundError "No music found!"))
        (add_log (LogDebugMusicFound 0) (Scenario.world [])))).
Proof.
  exact (proj2 (proj2 (proj2 (@no_music_is_logged_not_fatal Z 0
                                (Scenario.env_with Scenario.fs_none))))
           {| Main.screen := Display; Main.done := false;
              Main.dirty := PyFalse; Main.player := None |}
           (Scenario.world []) eq_refl eq_refl).
Defined.

(** Witness of [random_background_consecutive]: two images, the generator
    giving index 0 and then 1. *)
Lemma random_background_consecutive_witness :
  random_background Scenario.env Display (Scenario.world [0%nat; 1%nat])
  = (Return tt,
     painted Scenario.env "/data/backgrounds/x.png"
       {| pic_size := (1600, 900); pic_data := "/data/backgrounds/x.png" |}
       (Scenario.world [1%nat]))
  /\ _current_background
       (snd (random_background Scenario.env Display
               (painted Scenario.env "/data/backgrounds/x.png"
                  {| pic_size := (1600, 900);
                     pic_data := "/data/backgrounds/x.png" |}
                  (Scenario.world [1%nat]))))
     <> Some "/data/backgrounds/x.png".
Proof.
  assert (H1 : random_background Scenario.env Display
                 (Scenario.world [0%nat; 1%nat])
               = (Return tt,
                  painted Scenario.env "/data/backgrounds/x.png"
                    {| pic_size := (1600, 900);
                       pic_data := "/data/backgrounds/x.png" |}
                    (Scenario.world [1%nat]))) by reflexivity.
  split; [exact H1|].
  exact (random_background_consecutive Scenario.env
           ["x.png"; "y.jpg"] _ _ _ eq_refl (le_n 2) H1 eq_refl).
Defined.

(** Witness of [random_background_no_images]: a directory that holds a
    README only. *)
Lemma random_background_no_images_witness :
  random_background (Scenario.env_with Scenario.fs_empty) Display
    (Scenario.world [])
  = (Return tt, Scenario.world []).
Proof.
  exact (random_background_no_images (Scenario.env_with Scenario.fs_empty)
           ["README"] (Scenario.world []) eq_refl eq_refl).
Defined.

(** One image, already the one shown: it is drawn again, and no draw of
    the random generator is used. *)
Example random_background_single_again :
  random_background (Scenario.env_with Scenario.fs_single) Display
    (set_current_background (Some "/data/backgrounds/x.png")
       (Scenario.world [7%nat]))
  = (Return tt,
     painted (Scenario.env_with Scenario.fs_single) "/data/backgrounds/x.png"
       {| pic_size := (1600, 900); pic_data := "/data/backgrounds/x.png" |}
       (set_current_background (Some "/data/backgrounds/x.png")
          (Scenario.world [7%nat]))).
Proof. reflexivity. Qed.

(* ===================================================================== *)
(** ** The loop on a whole session *)
(* ===================================================================== *)

(** The first frame is shown on the tick that starts the session, the
    second one not before time 5, the decoder is closed once at the end of
    the stream, and the tick after that drops the player and draws the
    background; each drawing is followed by one display update. *)
Example main_loop_session :
  Main.loop Z.ltb Z.add 0 (Scenario.env_with Scenario.fs_single)
    Scenario.session (Scenario.idle, Scenario.world [])
  = (Return tt,
     ({| Main.screen := Display; Main.done := true; Main.dirty := PyFalse;
         Main.player := None |},
      {| _last_music := Some "/data/music/a.mp4";
         _current_background := Some "/data/backgrounds/x.png";
         display :=
           {| get_size := (1600, 900);
              drawn :=
                [ Blit {| pic_size := (1600, 900); pic_data := "pixels" |}
                    (0, 0);
                  Update;
                  Blit {| pic_size := (1600, 900); pic_data := "pixels" |}
                    (0, 0);
                  Update;
                  Fill COLORS.BLACK;
                  Blit {| pic_size := (1600, 900);
                          pic_data := "/data/backgrounds/x.png" |} (0, 0);
                  Update ] |};
         draws := [];
         log := [LogDebugMusicFound 1; LogInfoPlaying "/data/music/a.mp4"];
         closed := [{| mp_path := "/data/music/a.mp4" |}] |})).
Proof. reflexivity. Qed.

(* ===================================================================== *)
(** ** A session over its whole life *)
(* ===================================================================== *)

Section SessionLife.

Context {T : Type} (lt : T -> T -> bool) (add : T -> T -> T) (zero : T).
Variable env : Env.

Local Abbreviation Session := (@VideoPlayer.t T).
Local Abbreviation play := (VideoPlayer.play lt add zero env).

(** What [play] leaves alone in the world, and the little it adds. *)
Lemma blitted_frame (pic : Picture) (w : World) :
  _last_music (blitted pic w) = _last_music w
  /\ _current_background (blitted pic w) = _current_background w
  /\ draws (blitted pic w) = draws w
  /\ log (blitted pic w) = log w
  /\ closed (blitted pic w) = closed w
  /\ get_size (display (blitted pic w)) = get_size (display w)
  /\ exists dest,
       drawn (display (blitted pic w))
       = (drawn (display w) ++ [Blit pic dest])%list.
Proof.
  unfold blitted, centerblit, modify. cbn [snd].
  destruct (get_size (display w)) as [w_ h_], (pic_size pic) as [x y].
  cbn. repeat split. eauto.
Qed.

Lemma released_frame (self : Session) (w : World) :
  _last_music (released self w) = _last_music w
  /\ _current_background (released self w) = _current_background w
  /\ draws (released self w) = draws w
  /\ log (released self w) = log w
  /\ display (released self w) = display w.
Proof. unfold released. destruct (VideoPlayer.player self); repeat split. Qed.

(** X3: one call of [play()], in any state, leaves the selection memory
    ([_last_music], [_current_background]), the random generator and the
    size of the display as they were; on the display it draws nothing or
    appends exactly one blit (never a fill, never an update); and it logs
    nothing or exactly one error. *)
Theorem play_touches_little (now : T) (got : VideoPlayer.get_frame_result)
    (self : Session) (w : World) :
  let w' := snd (snd (play now got (self, w))) in
  _last_music w' = _last_music w
  /\ _current_background w' = _current_background w
  /\ draws w' = draws w
  /\ get_size (display w') = get_size (display w)
  /\ (drawn (display w') = drawn (display w)
      \/ exists pic dest,
           drawn (display w') = (drawn (display w) ++ [Blit pic dest])%list)
  /\ (log w' = log w \/ exists e, log w' = (log w ++ [LogError e])%list).
Proof.
  cbv zeta.
  assert (Hsame : forall self0 : Session,
    let w' := snd (snd (@Return pyval PyNone, (self0, w))) in
    _last_music w' = _last_music w
    /\ _current_background w' = _current_background w
    /\ draws w' = draws w
    /\ get_size (display w') = get_size (display w)
    /\ (drawn (display w') = drawn (display w)
        \/ exists pic dest,
             drawn (display w') = (drawn (display w) ++ [Blit pic dest])%list)
    /\ (log w' = log w \/ exists e, log w' = (log w ++ [LogError e])%list)).
  { intros self0. cbn. repeat split; now left. }
  assert (Hrel : forall self0 self1 : Session,
    let w' := snd (snd (@Return pyval PyNone, (self1, released self0 w))) in
    _last_music w' = _last_music w
    /\ _current_background w' = _current_background w
    /\ draws w' = draws w
    /\ get_size (display w') = get_size (display w)
    /\ (drawn (display w') = drawn (display w)
        \/ exists pic dest,
             drawn (display w') = (drawn (display w) ++ [Blit pic dest])%list)
    /\ (log w' = log w \/ exists e, log w' = (log w ++ [LogError e])%list)).
  { intros self0 self1. cbn [snd].
    destruct (released_frame self0 w) as [A [B [C [D E]]]].
    rewrite A, B, C, D, E. repeat split; now left. }
  assert (Hd : forall self0 : Session,
    let w' := snd (snd (VideoPlayer.display_it zero env (self0, w))) in
    _last_music w' = _last_music w
    /\ _current_background w' = _current_background w
    /\ draws w' = draws w
    /\ get_size (display w') = get_size (display w)
    /\ (drawn (display w') = drawn (display w)
        \/ exists pic dest,
             drawn (display w') = (drawn (display w) ++ [Blit pic dest])%list)
    /\ (log w' = log w \/ exists e, log w' = (log w ++ [LogError e])%list)).
  { intros self0.
    destruct (display_it_cases zero env self0 w) as [[pic [_ H]]|[e [_ H]]];
      rewrite H; cbn [snd].
    - destruct (blitted_frame pic w) as [A [B [C [D [_ [F [dest G]]]]]]].
      rewrite A, B, C, D, F, G.
      repeat split; [right; eauto|now left].
    - destruct (released_frame self0 (add_log (LogError e) w))
        as [A [B [C [D E]]]].
      rewrite A, B, C, D, E. cbn.
      repeat split; [now left|right; eauto]. }
  rewrite play_eq.
  destruct (VideoPlayer.player self); [|apply Hsame].
  destruct (VideoPlayer.image self).
  - destruct (lt now (VideoPlayer.wait self)); [apply Hsame|apply Hd].
  - destruct got as [| |v|img pts val];
      [apply Hrel|apply Hsame|apply Hsame|].
    destruct (lt zero val); [apply Hsame|apply Hd].
Qed.

Lemma run_op_keeps (mp : MediaPlayer) (surf : surface_ref)
    (c0 : list MediaPlayer) (o : op) (s : Session * World) :
  alive_or_stopped zero mp surf c0 s ->
  exists s', run_op lt add zero env o s = (Return tt, s')
             /\ alive_or_stopped zero mp surf c0 s'.
Proof.
  destruct s as [self w]. unfold alive_or_stopped. cbn [fst snd].
  assert (Hstop : VideoPlayer.player self = Some mp -> closed w = c0 ->
                  closed (released self w) = (c0 ++ [mp])%list).
  { intros Hp Hc. unfold released. rewrite Hp. cbn. now rewrite Hc. }
  intros [[Hp [Hs [Hf Hc]]]|[-> Hc]].
  - destruct o as [now got|]; cbn [run_op].
    + unfold bind. rewrite play_eq, Hp.
      assert (Hd : forall self0 : Session,
                VideoPlayer.player self0 = Some mp ->
                VideoPlayer.surface self0 = Some surf ->
                VideoPlayer.finished self0 = false ->
                exists s',
                  (let (o, s'0) := VideoPlayer.display_it zero env (self0, w) in
                   match o with
                   | Return _ => ret tt s'0
                   | Raise e => (Raise e, s'0)
                   | Starved => (Starved, s'0)
                   end) = (Return tt, s')
                  /\ ((VideoPlayer.player (fst s') = Some mp
                       /\ VideoPlayer.surface (fst s') = Some surf
                       /\ VideoPlayer.finished (fst s') = false
                       /\ closed (snd s') = c0)
                      \/ (fst s' = stopped zero
                          /\ closed (snd s') = (c0 ++ [mp])%list))).
      { intros self0 Hp0 Hs0 Hf0.
        destruct (display_it_cases zero env self0 w) as [[pic [_ H]]|[e [_ H]]];
          rewrite H; eexists; (split; [reflexivity|]); cbn [fst snd].
        - left. destruct (blitted_frame pic w) as [_ [_ [_ [_ [E _]]]]].
          rewrite E. destruct self0; cbn in *. auto.
        - right. split; [reflexivity|].
          unfold released. rewrite Hp0. cbn. now rewrite Hc. }
      destruct (VideoPlayer.image self) as [im|].
      * destruct (lt now (VideoPlayer.wait self)); [|now apply Hd].
        eexists. split; [reflexivity|]. left. auto.
      * destruct got as [| |v|img pts val].
        -- eexists. split; [reflexivity|]. right. cbn [fst snd]. auto.
        -- eexists. split; [reflexivity|]. left. auto.
        -- eexists. split; [reflexivity|]. left. auto.
        -- destruct (lt zero val).
           ++ eexists. split; [reflexivity|]. left.
              destruct self; cbn in *. auto.
           ++ apply Hd; destruct self; cbn in *; auto.
    + rewrite stop_eq. eexists. split; [reflexivity|]. right. cbn [fst snd].
      auto.
  - destruct o as [now got|]; cbn [run_op].
    + unfold bind. rewrite play_eq. cbn.
      eexists. split; [reflexivity|]. right. auto.
    + rewrite stop_eq. eexists. split; [reflexivity|]. right. auto.
Qed.

(** X4: whatever calls of [play()] and [stop()] follow the creation of a
    session, in whatever order and with whatever the decoder answers, they
    all return, and the session is then either alive (it holds the decoder
    and the surface it was created with, is not finished, and the decoder
    has not been closed) or stopped (no references, finished, and the
    decoder closed exactly once). In particular [has_finished] is true
    exactly when the decoder reference is gone. *)
Theorem session_closes_decoder_once (ops : list op) (path : string)
    (surf : surface_ref) (w : World) :
  exists self' w',
    run lt add zero env ops (VideoPlayer.__init__ zero path surf, w)
    = (Return tt, (self', w'))
    /\ ((VideoPlayer.player self' = Some {| mp_path := path |}
         /\ VideoPlayer.surface self' = Some surf
         /\ VideoPlayer.has_finished self' = false
         /\ closed w' = closed w)
        \/ (self' = stopped zero
            /\ VideoPlayer.has_finished self' = true
            /\ closed w' = (closed w ++ [{| mp_path := path |}])%list))
    /\ (VideoPlayer.has_finished self' = true <->
        VideoPlayer.player self' = None).
Proof.
  assert (G : forall s,
    alive_or_stopped zero {| mp_path := path |} surf (closed w) s ->
    exists s', run lt add zero env ops s = (Return tt, s')
               /\ alive_or_stopped zero {| mp_path := path |} surf (closed w) s').
  { induction ops as [|o ops IH]; intros s Hs.
    - exists s. split; [reflexivity|exact Hs].
    - cbn [run]. unfold bind.
      destruct (run_op_keeps _ _ _ o s Hs) as [s1 [E1 H1]]. rewrite E1.
      apply IH. exact H1. }
  destruct (G (VideoPlayer.__init__ zero path surf, w)) as [[self' w'] [E H]].
  { left. cbn. auto. }
  exists self', w'. split; [exact E|].
  unfold alive_or_stopped in H. cbn [fst snd] in H.
  unfold VideoPlayer.has_finished.
  destruct H as [[Hp [Hs [Hf Hc]]]|[-> Hc]].
  - split; [left; auto|]. rewrite Hp, Hf. split; discriminate.
  - split; [right; auto|]. cbn. split; reflexivity.
Qed.

(** X5: a session that holds a frame shows it exactly on the first tick
    whose time is not before the deadline, when rendering succeeds: the
    ticks before return [None] without any change, that tick returns [True]
    with the frame blitted and cleared, whatever the decoder would have
    answered on any of them. *)
Theorem stored_frame_shown_when_due
    (early : list (T * VideoPlayer.get_frame_result)) (t : T)
    (g : VideoPlayer.get_frame_result) (self : Session) (w : World)
    (pic : Picture) :
  VideoPlayer.player self <> None ->
  VideoPlayer.image self <> None ->
  (forall t' g', In (t', g') early -> lt t' (VideoPlayer.wait self) = true) ->
  lt t (VideoPlayer.wait self) = false ->
  VideoPlayer.render env (self, w) = (Return tt, (self, blitted pic w)) ->
  plays lt add zero env (early ++ [(t, g)])%list (self, w)
  = (Return (repeat PyNone (List.length early) ++ [PyTrue])%list,
     (VideoPlayer.set_image None self, blitted pic w)).
Proof.
  intros Hp Hi Hearly Hdue Hr.
  assert (Hwait : forall t' g', In (t', g') early ->
                  play t' g' (self, w) = (Return PyNone, (self, w))).
  { intros t' g' Hin. rewrite play_eq.
    destruct (VideoPlayer.player self); [|contradiction].
    destruct (VideoPlayer.image self); [|contradiction].
    now rewrite (Hearly _ _ Hin). }
  assert (Hshow : play t g (self, w)
                  = (Return PyTrue,
                     (VideoPlayer.set_image None self, blitted pic w))).
  { rewrite play_eq.
    destruct (VideoPlayer.player self); [|contradiction].
    destruct (VideoPlayer.image self); [|contradiction].
    rewrite Hdue. now rewrite (display_it_ok zero env _ _ _ Hr). }
  clear Hearly. induction early as [|[t' g'] early IH].
  - cbn [app plays List.length repeat]. unfold bind. rewrite Hshow. reflexivity.
  - cbn [app plays List.length repeat]. unfold bind.
    rewrite (Hwait t' g' (or_introl eq_refl)).
    fold (@bind (Session * World) (list pyval) (list pyval)).
    unfold bind in IH |- *. rewrite IH; [reflexivity|].
    intros t0 g0 Hin. apply Hwait. now right.
Qed.

End SessionLife.

(** Witness of [session_closes_decoder_once]: a frame shown, a stop, and
    calls after the stop. *)
Lemma session_closes_decoder_once_witness :
  exists self' w',
    run Z.ltb Z.add 0 Scenario.env
      [Play 1 (VideoPlayer.Frame Scenario.rgb_frame 0 0); Stop;
       Play 2 VideoPlayer.Eof; Stop]
      (VideoPlayer.__init__ 0 "/data/music/a.mp4" Display, Scenario.world [])
    = (Return tt, (self', w'))
    /\ ((VideoPlayer.player self' = Some {| mp_path := "/data/music/a.mp4" |}
         /\ VideoPlayer.surface self' = Some Display
         /\ VideoPlayer.has_finished self' = false
         /\ closed w' = closed (Scenario.world []))
        \/ (self' = stopped 0
            /\ VideoPlayer.has_finished self' = true
            /\ closed w'
               = (closed (Scenario.world [])
                  ++ [{| mp_path := "/data/music/a.mp4" |}])%list))
    /\ (VideoPlayer.has_finished self' = true <->
        VideoPlayer.player self' = None).
Proof.
  exact (session_closes_decoder_once Z.ltb Z.add 0 Scenario.env
           [Play 1 (VideoPlayer.Frame Scenario.rgb_frame 0 0); Stop;
            Play 2 VideoPlayer.Eof; Stop]
           "/data/music/a.mp4" Display (Scenario.world [])).
Defined.

(** Witness of [stored_frame_shown_when_due]: the frame scheduled for time
    5 is shown at time 5, not at 3 or 4. *)
Lemma stored_frame_shown_when_due_witness :
  plays Z.ltb Z.add 0 Scenario.env
    [(3, VideoPlayer.Eof); (4, VideoPlayer.Paused); (5, VideoPlayer.Eof)]
    (Scenario.scheduled, Scenario.world [])
  = (Return [PyNone; PyNone; PyTrue],
     (VideoPlayer.set_image None Scenario.scheduled,
      blitted {| pic_size := (1600, 900); pic_data := "pixels" |}
        (Scenario.world []))).
Proof.
  apply (stored_frame_shown_when_due Z.ltb Z.add 0 Scenario.env
           [(3, VideoPlayer.Eof); (4, VideoPlayer.Paused)] 5 VideoPlayer.Eof
           Scenario.scheduled (Scenario.world [])
           {| pic_size := (1600, 900); pic_data := "pixels" |}).
  - discriminate.
  - discriminate.
  - intros t' g' [[= <- <-]|[[= <- <-]|[]]]; reflexivity.
  - reflexivity.
  - reflexivity.
Defined.

(* ===================================================================== *)
(** ** Rules for sequenced code *)
(* ===================================================================== *)

Section Sequenced.

Context {S : Type}.

Lemma leaves_bind {A B X} (f : S -> X) (c : M S A) (k : A -> M S B) :
  leaves f c -> (forall a, leaves f (k a)) -> leaves f (bind c k).
Proof.
  intros Hc Hk s o s'. unfold bind.
  destruct (c s) as [[a| e0|] s1] eqn:E.
  - intros H. rewrite (Hk _ _ _ _ H). exact (Hc _ _ _ E).
  - intros [= <- <-]. exact (Hc _ _ _ E).
  - intros [= <- <-]. exact (Hc _ _ _ E).
Qed.

Lemma leaves_ret {A X} (f : S -> X) (a : A) : leaves f (@ret S A a).
Proof. intros s o s' [= <- <-]. reflexivity. Qed.

Lemma leaves_gets {A X} (f : S -> X) (g : S -> A) : leaves f (gets g).
Proof. intros s o s' [= <- <-]. reflexivity. Qed.

Lemma leaves_modify {X} (f : S -> X) (g : S -> S) :
  (forall s, f (g s) = f s) -> leaves f (modify g).
Proof. intros H s o s' [= <- <-]. apply H. Qed.

Lemma leaves_try_FileNotFoundError {A X} (f : S -> X) (c : M S A)
    (h : exn -> M S A) :
  leaves f c -> (forall e, leaves f (h e)) ->
  leaves f (try_except_FileNotFoundError c h).
Proof.
  intros Hc Hh s o s'. unfold try_except_FileNotFoundError.
  destruct (c s) as [[a| e0|] s1] eqn:E.
  - intros [= <- <-]. exact (Hc _ _ _ E).
  - destruct (is_FileNotFoundError e0).
    + intros H. rewrite (Hh _ _ _ _ H). exact (Hc _ _ _ E).
    + intros [= <- <-]. exact (Hc _ _ _ E).
  - intros [= <- <-]. exact (Hc _ _ _ E).
Qed.

End Sequenced.

(** Code that runs on the world alone leaves the caller's object alone. *)
Lemma leaves_in_world {X A Y} (f : X -> Y) (c : M World A) :
  leaves (fun s : X * World => f (fst s)) (in_world c).
Proof.
  intros s o s'. unfold in_world. destruct (c (snd s)) as [r w'].
  intros [= <- <-]. reflexivity.
Qed.

(* ===================================================================== *)
(** ** The loop of [main] *)
(* ===================================================================== *)

Section LoopFacts.

Context {T : Type} (lt : T -> T -> bool) (add : T -> T -> T) (zero : T).
Variable env : Env.

Local Abbreviation Locals := (@Main.locals T).
Local Abbreviation on_event := (Main.on_event zero env).
Local Abbreviation loop_body := (Main.loop_body lt add zero env).
Local Abbreviation loop := (Main.loop lt add zero env).

Lemma leaves_call {A X} (f : Locals -> X) (m : VideoPlayer.method A)
    (p : VideoPlayer.t) :
  (forall v l, f (Main.set_player v l) = f l) ->
  leaves (fun s : Locals * World => f (fst s)) (Main.call m p).
Proof.
  intros H s o s'. unfold Main.call.
  destruct (m (p, snd s)) as [r [p' w']]. intros [= <- <-]. apply H.
Qed.

Lemma leaves_local_set {X} (f : Locals -> X) (g : Locals -> Locals) :
  (forall l, f (g l) = f l) ->
  leaves (fun s : Locals * World => f (fst s)) (Main.local_set g).
Proof. intros H. apply leaves_modify. intros s. apply H. Qed.

(** [random_background] closes no decoder, leaves [_last_music] alone and
    logs nothing, however it ends. *)
Lemma random_background_frame (scr : surface_ref) :
  leaves (fun w => (closed w, _last_music w, log w))
    (random_background env scr).
Proof.
  intros w o w'. destruct scr. rewrite random_background_eq.
  assert (Hp : forall bg pic w0,
            (closed (painted env bg pic w0), _last_music (painted env bg pic w0),
             log (painted env bg pic w0))
            = (closed w0, _last_music w0, log w0)).
  { intros bg pic w0. unfold painted, blitted, filled, centerblit,
      surface_fill, modify. cbn [snd display set_display get_size].
    destruct (get_size (display w0)), (pic_size pic). reflexivity. }
  assert (Hdraw : forall bg w0 o0 w1,
            match image_load env bg with
            | Error e => (Raise e, filled env w0)
            | Ok image =>
                match resize env image (get_size (display w0)) with
                | Error e => (Raise e, filled env w0)
                | Ok pic => (Return tt, painted env bg pic w0)
                end
            end = (o0, w1) ->
            (closed w1, _last_music w1, log w1)
            = (closed w0, _last_music w0, log w0)).
  { intros bg w0 o0 w1.
    destruct (image_load env bg) as [image|e]; [|now intros [= <- <-]].
    destruct (resize env image _) as [pic|e]; [|now intros [= <- <-]].
    intros [= <- <-]. apply Hp. }
  destruct (listing env (bgdir env)) as [names|]; [|now intros [= <- <-]].
  cbv zeta. destruct (backgrounds_in _ _) as [|bg [|bg' rest]].
  - now intros [= <- <-].
  - apply Hdraw.
  - destruct (choice_until_new _ _ _) as [[bg0 rs']|]; [|now intros [= <- <-]].
    intros H. apply Hdraw in H. exact H.
Qed.

Lemma leaves_in_world_pair {X A Y Z} (f : X -> Y) (g : World -> Z)
    (c : M World A) :
  leaves g c ->
  leaves (fun s : X * World => (f (fst s), g (snd s))) (in_world c).
Proof.
  intros H s o s'. unfold in_world. destruct (c (snd s)) as [r w'] eqn:E.
  intros [= <- <-]. cbn [fst snd]. now rewrite (H _ _ _ E).
Qed.

Lemma leaves_local_set_pair {X Z} (f : Locals -> X) (g : World -> Z)
    (h : Locals -> Locals) :
  (forall l, f (h l) = f l) ->
  leaves (fun s : Locals * World => (f (fst s), g (snd s))) (Main.local_set h).
Proof. intros H s o s' [= <- <-]. cbn [fst snd]. now rewrite H. Qed.

Lemma on_redraw_leaves_session {X} (f : Locals -> X) :
  (forall v l, f (Main.set_dirty v l) = f l) ->
  leaves (fun s : Locals * World =>
            (f (fst s), (closed (snd s), _last_music (snd s), log (snd s))))
    (Main.on_redraw env).
Proof.
  intros H. unfold Main.on_redraw.
  apply leaves_bind; [apply leaves_gets|]. intros scr.
  apply leaves_bind.
  - apply (leaves_in_world_pair f
             (fun w => (closed w, _last_music w, log w))).
    apply random_background_frame.
  - intros _.
    apply (leaves_local_set_pair f
             (fun w => (closed w, _last_music w, log w))).
    intros l. apply H.
Qed.

(** X6: an event other than the Return key never starts, stops or changes
    a session: whatever the event is (a quit event, the space bar or a left
    click that redraw the background, any other key or button) and however
    its handling ends, [player] is the same object in the same state, no
    decoder has been closed and [_last_music] is as before. *)
Theorem other_events_leave_session (ev : event) (s s' : Locals * World)
    (o : outcome unit) :
  ev <> KEYUP pygame.K_RETURN ->
  on_event ev s = (o, s') ->
  Main.player (fst s') = Main.player (fst s)
  /\ closed (snd s') = closed (snd s)
  /\ _last_music (snd s') = _last_music (snd s).
Proof.
  intros Hev H.
  assert (L : leaves (fun s : Locals * World =>
                        (Main.player (fst s),
                         (closed (snd s), _last_music (snd s), log (snd s))))
                (on_event ev)).
  { assert (Hdone : leaves (fun s : Locals * World =>
                        (Main.player (fst s),
                         (closed (snd s), _last_music (snd s), log (snd s))))
                      (Main.local_set (Main.set_done true))).
    { apply (leaves_local_set_pair Main.player
               (fun w => (closed w, _last_music w, log w))).
      reflexivity. }
    pose proof (on_redraw_leaves_session Main.player
                  (fun _ _ => eq_refl)) as Hre.
    destruct ev as [|button|key|]; cbn [Main.on_event].
    - exact Hdone.
    - destruct (button =? pygame.BUTTON_RIGHT); [exact Hdone|].
      destruct (button =? pygame.BUTTON_LEFT); [exact Hre|apply leaves_ret].
    - destruct (key =? pygame.K_ESCAPE); [exact Hdone|].
      destruct (key =? pygame.K_SPACE); [exact Hre|].
      destruct (Z.eqb_spec key pygame.K_RETURN) as [->|_];
        [contradiction|apply leaves_ret].
    - apply leaves_ret. }
  specialize (L _ _ _ H). injection L as L1 L2 L3 _. auto.
Qed.

(** Handling an event sets [done] exactly for the quit events, and never
    clears it. *)
Lemma on_event_done (ev : event) (s s' : Locals * World) (o : outcome unit) :
  on_event ev s = (o, s') ->
  Main.done (fst s') = Main.done (fst s) || quits ev.
Proof.
  assert (Hq : forall (s s' : Locals * World) (o : outcome unit),
            Main.local_set (Main.set_done true) s = (o, s') ->
            Main.done (fst s') = Main.done (fst s) || true).
  { intros s0 s0' o0 [= <- <-]. cbn. now rewrite orb_true_r. }
  assert (Hk : forall (c : @Main.code T unit) (s s' : Locals * World)
                      (o : outcome unit),
            leaves (fun s : Locals * World => Main.done (fst s)) c ->
            c s = (o, s') ->
            Main.done (fst s') = Main.done (fst s) || false).
  { intros c s0 s0' o0 L E. rewrite orb_false_r. exact (L _ _ _ E). }
  assert (Hre : leaves (fun s : Locals * World => Main.done (fst s))
                  (Main.on_redraw env)).
  { intros s0 o0 s0' E.
    pose proof (on_redraw_leaves_session Main.done (fun _ _ => eq_refl)
                  _ _ _ E) as L.
    now injection L. }
  assert (Hrt : leaves (fun s : Locals * World => Main.done (fst s))
                  (Main.on_return zero env)).
  { unfold Main.on_return. apply leaves_bind; [apply leaves_gets|].
    intros [p|].
    - apply leaves_call. reflexivity.
    - apply leaves_try_FileNotFoundError.
      + apply leaves_bind; [apply (leaves_in_world Main.done)|]. intros video.
        apply leaves_bind; [apply leaves_gets|]. intros scr.
        apply leaves_bind; [apply leaves_local_set; reflexivity|]. intros _.
        apply (leaves_in_world Main.done).
      + intros e. apply (leaves_in_world Main.done). }
  destruct ev as [|button|key|]; cbn [Main.on_event quits].
  - apply Hq.
  - destruct (button =? pygame.BUTTON_RIGHT); [apply Hq|].
    destruct (button =? pygame.BUTTON_LEFT);
      [apply Hk, Hre|apply Hk, leaves_ret].
  - destruct (key =? pygame.K_ESCAPE); [apply Hq|].
    destruct (key =? pygame.K_SPACE); [apply Hk, Hre|].
    destruct (key =? pygame.K_RETURN); [apply Hk, Hrt|apply Hk, leaves_ret].
  - apply Hk, leaves_ret.
Qed.

Lemma for_each_done (evs : list event) (s s' : Locals * World) :
  Main.for_each zero env evs s = (Return tt, s') ->
  Main.done (fst s') = Main.done (fst s) || existsb quits evs.
Proof.
  revert s. induction evs as [|ev evs IH]; intros s; cbn [Main.for_each existsb].
  - intros [= <-]. now rewrite orb_false_r.
  - unfold bind. destruct (on_event ev s) as [[[]| e|] s1] eqn:E;
      [|discriminate..].
    intros H. rewrite (IH _ H), (on_event_done _ _ _ _ E).
    now rewrite orb_assoc.
Qed.

(** The rest of a turn, after the events, leaves [done] alone. *)
Lemma loop_body_done (i : Main.tick) (s s' : Locals * World) :
  loop_body i s = (Return tt, s') ->
  Main.done (fst s') = Main.done (fst s) || existsb quits (Main.events i).
Proof.
  unfold Main.loop_body. unfold bind at 1.
  destruct (Main.for_each zero env (Main.events i) s) as [[[]| e|] s1] eqn:E;
    [|discriminate..].
  rewrite <- (for_each_done _ _ _ E). intros H.
  assert (L : leaves (fun s : Locals * World => Main.done (fst s))
    (pl <- Main.local_get Main.player ;;
     match pl with
     | Some p =>
         if VideoPlayer.finished p then
           Main.local_set (Main.set_player None) ;;;
           scr <- Main.local_get Main.screen ;;
           in_world (random_background env scr) ;;;
           Main.local_set (Main.set_dirty PyTrue)
         else
           r <- Main.call (VideoPlayer.play lt add zero env (Main.now i)
                             (Main.got i)) p ;;
           Main.local_set (Main.set_dirty r)
     | None => ret tt
     end ;;;
     d <- Main.local_get Main.dirty ;;
     if truthy d then
       in_world Main.display_update ;;;
       Main.local_set (Main.set_dirty PyFalse)
     else ret tt)).
  { apply leaves_bind; [apply leaves_gets|]. intros pl.
    apply leaves_bind.
    - destruct pl as [p|]; [|apply leaves_ret].
      destruct (VideoPlayer.finished p).
      + apply leaves_bind; [apply leaves_local_set; reflexivity|]. intros _.
        apply leaves_bind; [apply leaves_gets|]. intros scr.
        apply leaves_bind; [apply (leaves_in_world Main.done)|]. intros _.
        apply leaves_local_set; reflexivity.
      + apply leaves_bind; [apply leaves_call; reflexivity|]. intros r.
        apply leaves_local_set; reflexivity.
    - intros _. apply leaves_bind; [apply leaves_gets|]. intros d.
      destruct (truthy d); [|apply leaves_ret].
      apply leaves_bind; [apply (leaves_in_world Main.done)|]. intros _.
      apply leaves_local_set; reflexivity. }
  exact (L _ _ _ H).
Qed.


(** X8: the Return key pressed while a session exists ends it within the
    same turn of the loop: the session is stopped (its decoder closed), the
    check that follows the events finds it finished, drops the player and
    redraws the background, and the display is updated; the decoder is not
    asked for a frame on that turn. *)
Theorem return_key_ends_session_in_turn (i : Main.tick) (l : Locals)
    (p : VideoPlayer.t) (w w1 : World) :
  Main.events i = [KEYUP pygame.K_RETURN] ->
  Main.player l = Some p ->
  random_background env (Main.screen l) (released p w) = (Return tt, w1) ->
  loop_body i (l, w)
  = (Return tt,
     (Main.set_dirty PyFalse (Main.set_player None l),
      snd (Main.display_update w1))).
Proof.
  intros Hev Hp Hbg. unfold Main.loop_body. rewrite Hev.
  cbn [Main.for_each Main.on_event Z.eqb pygame.K_RETURN pygame.K_ESCAPE
       pygame.K_SPACE Pos.eqb].
  unfold Main.on_return, bind, Main.local_get, gets. cbn [fst snd].
  rewrite Hp. unfold Main.call. cbn [fst snd]. rewrite stop_eq.
  cbn [ret fst snd Main.player Main.set_player stopped
       VideoPlayer.finished Main.local_set modify Main.screen in_world].
  unfold in_world. cbn [fst snd]. rewrite Hbg. reflexivity.
Qed.

End LoopFacts.

(** Witness of [other_events_leave_session]: the space bar while a frame
    waits. *)
Lemma other_events_leave_session_witness :
  Main.player
    (fst (snd (Main.on_event 0 Scenario.env (KEYUP pygame.K_SPACE)
                 (Scenario.playing, Scenario.world [0%nat]))))
  = Some Scenario.scheduled
  /\ closed
       (snd (snd (Main.on_event 0 Scenario.env (KEYUP pygame.K_SPACE)
                    (Scenario.playing, Scenario.world [0%nat]))))
     = [].
Proof.
  assert (Hev : KEYUP pygame.K_SPACE <> KEYUP pygame.K_RETURN)
    by discriminate.
  destruct (other_events_leave_session 0 Scenario.env (KEYUP pygame.K_SPACE)
              (Scenario.playing, Scenario.world [0%nat]) _ _ Hev eq_refl)
    as [H1 [H2 _]].
  split; [exact H1|exact H2].
Defined.


(** Witness of [return_key_ends_session_in_turn]: the Return key while a
    frame waits, with one background to draw. *)
Lemma return_key_ends_session_in_turn_witness :
  Main.loop_body Z.ltb Z.add 0 (Scenario.env_with Scenario.fs_single)
    (Scenario.tick [KEYUP pygame.K_RETURN] 3
       (VideoPlayer.Frame Scenario.rgb_frame 0 0))
    (Scenario.playing, Scenario.world [])
  = (Return tt,
     (Scenario.idle,
      snd (Main.display_update
             (painted (Scenario.env_with Scenario.fs_single)
                "/data/backgrounds/x.png"
                {| pic_size := (1600, 900);
                   pic_data := "/data/backgrounds/x.png" |}
                (released Scenario.scheduled (Scenario.world [])))))).
Proof.
  exact (return_key_ends_session_in_turn Z.ltb Z.add 0
           (Scenario.env_with Scenario.fs_single)
           (Scenario.tick [KEYUP pygame.K_RETURN] 3
              (VideoPlayer.Frame Scenario.rgb_frame 0 0))
           Scenario.playing Scenario.scheduled (Scenario.world []) _
           eq_refl eq_refl eq_refl).
Defined.

(* ===================================================================== *)
(** ** [centerblit] *)
(* ===================================================================== *)

(** X10: [centerblit] appends one blit of the picture and changes nothing
    else; the margins it leaves on opposite sides differ by one pixel at
    most, on both axes and whatever the two sizes are; and a picture that is
    not larger than the destination lies wholly inside it. *)
Theorem centerblit_centres (pic : Picture) (dest : surface_ref) (w : World)
    (x y w_ h_ : Z) :
  pic_size pic = (x, y) ->
  get_size (display w) = (w_, h_) ->
  exists px py,
    centerblit pic dest w
    = (Return tt,
       set_display
         {| get_size := (w_, h_);
            drawn := drawn (display w) ++ [Blit pic (px, py)] |} w)
    /\ -1 <= (w_ - x - px) - px <= 1
    /\ -1 <= (h_ - y - py) - py <= 1
    /\ (0 <= x <= w_ -> 0 <= px /\ px + x <= w_)
    /\ (0 <= y <= h_ -> 0 <= py /\ py + y <= h_).
Proof.
  intros Hp Hs. exists (w_ / 2 - x / 2), (h_ / 2 - y / 2). split.
  - unfold centerblit, modify. now rewrite Hp, Hs.
  - pose proof (Z.div_mod w_ 2 ltac:(lia)).
    pose proof (Z.mod_pos_bound w_ 2 ltac:(lia)).
    pose proof (Z.div_mod h_ 2 ltac:(lia)).
    pose proof (Z.mod_pos_bound h_ 2 ltac:(lia)).
    pose proof (Z.div_mod x 2 ltac:(lia)).
    pose proof (Z.mod_pos_bound x 2 ltac:(lia)).
    pose proof (Z.div_mod y 2 ltac:(lia)).
    pose proof (Z.mod_pos_bound y 2 ltac:(lia)).
    repeat split; lia.
Qed.

(** Witness of [centerblit_centres]: a 801 by 600 picture on the 1600 by
    900 display. *)
Lemma centerblit_centres_witness :
  exists px py,
    centerblit {| pic_size := (801, 600); pic_data := "p" |} Display
      (Scenario.world [])
    = (Return tt,
       set_display
         {| get_size := (1600, 900);
            drawn := drawn (display (Scenario.world []))
                     ++ [Blit {| pic_size := (801, 600); pic_data := "p" |}
                           (px, py)] |}
         (Scenario.world []))
    /\ -1 <= (1600 - 801 - px) - px <= 1
    /\ -1 <= (900 - 600 - py) - py <= 1
    /\ (0 <= 801 <= 1600 -> 0 <= px /\ px + 801 <= 1600)
    /\ (0 <= 600 <= 900 -> 0 <= py /\ py + 600 <= 900).
Proof.
  exact (centerblit_centres {| pic_size := (801, 600); pic_data := "p" |}
           Display (Scenario.world []) 801 600 1600 900 eq_refl eq_refl).
Defined.

(* ===================================================================== *)
(** ** [extension] on every path *)
(* ===================================================================== *)

Lemma lower_ascii_idem (c : ascii) :
  Py.lower_ascii (Py.lower_ascii c) = Py.lower_ascii c.
Proof. destruct c as [[] [] [] [] [] [] [] []]; reflexivity. Qed.

Lemma lower_ascii_dot_slash (c : ascii) :
  Ascii.eqb (Py.lower_ascii c) "." = Ascii.eqb c "."
  /\ Ascii.eqb (Py.lower_ascii c) "/" = Ascii.eqb c "/".
Proof. destruct c as [[] [] [] [] [] [] [] []]; split; reflexivity. Qed.

Lemma lower_idem (s : string) : Py.lower (Py.lower s) = Py.lower s.
Proof.
  induction s as [|c s IH]; cbn; [reflexivity|].
  now rewrite lower_ascii_idem, IH.
Qed.

Lemma occurs_lower (s : string) :
  occurs "." (Py.lower s) = occurs "." s
  /\ occurs "/" (Py.lower s) = occurs "/" s.
Proof.
  induction s as [|c s [IH1 IH2]]; cbn; [split; reflexivity|].
  destruct (lower_ascii_dot_slash c) as [-> ->]. now rewrite IH1, IH2.
Qed.

Lemma isascii_app (a b : string) :
  Py.isascii (a ++ b) = Py.isascii a && Py.isascii b.
Proof.
  induction a as [|x a IH]; cbn [append Py.isascii]; [reflexivity|].
  now rewrite IH, andb_assoc.
Qed.

Lemma lower_ascii_isascii (c : ascii) :
  (nat_of_ascii (Py.lower_ascii c) <? 128)%nat = (nat_of_ascii c <? 128)%nat.
Proof. destruct c as [[] [] [] [] [] [] [] []]; reflexivity. Qed.

Lemma isascii_lower (s : string) : Py.isascii (Py.lower s) = Py.isascii s.
Proof.
  induction s as [|c s IH]; cbn [Py.lower Py.isascii]; [reflexivity|].
  now rewrite lower_ascii_isascii, IH.
Qed.

(** X11: on an ASCII path whose last component is [name], [extension]
    gives the empty string when [name] holds no dot, and otherwise, with
    [name] cut at its last dot into [n] and [e], the empty string when [n]
    is empty or made of dots only and else [e] with [A..Z] turned into
    [a..z]. Nothing of the directory part counts, dots included. *)
Theorem extension_of_last_component (dir name : string) :
  Py.isascii (dir ++ name) = true ->
  (dir = "" \/ exists d, dir = d ++ "/") ->
  occurs "/" name = false ->
  (occurs "." name = false -> extension (dir ++ name) = "")
  /\ (forall n e,
        name = n ++ "." ++ e ->
        occurs "." e = false ->
        extension (dir ++ name) = if all_dots n then "" else Py.lower e).
Proof.
  intros _ Hdir Hsep. split.
  - intros Hdot. unfold extension.
    now rewrite (splitext_no_dot _ _ Hdir Hsep Hdot).
  - intros n e -> He. unfold extension.
    rewrite (splitext_dot _ _ _ Hdir Hsep He).
    now destruct (all_dots n).
Qed.

(** Witness of [extension_of_last_component]: a hidden directory, and a
    name with two dots. *)
Lemma extension_of_last_component_witness :
  Py.isascii ("/home/u/.cache/" ++ "a.tar.GZ") = true
  /\ extension ("/home/u/.cache/" ++ "a.tar.GZ") = "gz".
Proof.
  split; [reflexivity|].
  exact (proj2 (extension_of_last_component "/home/u/.cache/" "a.tar.GZ"
                  eq_refl
                  (or_intror (ex_intro _ "/home/u/.cache" eq_refl)) eq_refl)
           "a.tar" "GZ" eq_refl eq_refl).
Defined.

(** X12: what [extension] returns on an ASCII path holds no dot and no
    path separator, is ASCII, and is already in lower case. *)
Theorem extension_is_plain (f : string) :
  Py.isascii f = true ->
  occurs "." (extension f) = false
  /\ occurs "/" (extension f) = false
  /\ Py.isascii (extension f) = true
  /\ Py.lower (extension f) = extension f.
Proof.
  intros Hascii.
  destruct (path_split f) as [dir [name [-> [Hdir Hsep]]]].
  unfold extension. destruct (occurs "." name) eqn:Hdot.
  - destruct (occurs_split_last _ _ Hdot) as [n [e [-> He]]].
    change (String "."%char e) with ("." ++ e) in *.
    rewrite (splitext_dot _ _ _ Hdir Hsep He).
    destruct (all_dots n); [repeat split|]. cbn [snd append Py.drop].
    destruct (occurs_lower e) as [-> ->]. rewrite lower_idem, isascii_lower.
    rewrite occurs_app in Hsep. apply orb_false_iff in Hsep.
    rewrite !isascii_app in Hascii.
    apply andb_true_iff in Hascii. destruct Hascii as [_ Hascii].
    apply andb_true_iff in Hascii. destruct Hascii as [_ Hascii].
    apply andb_true_iff in Hascii. destruct Hascii as [_ Hascii].
    cbn in Hsep. tauto.
  - rewrite (splitext_no_dot _ _ Hdir Hsep Hdot). repeat split.
Qed.

(** Witness of [extension_is_plain]: a path with dots in a directory and
    capitals in the extension. *)
Lemma extension_is_plain_witness :
  Py.isascii "/a.b/.c..MP4" = true
  /\ extension "/a.b/.c..MP4" = "mp4"
  /\ Py.lower (extension "/a.b/.c..MP4") = extension "/a.b/.c..MP4".
Proof.
  split; [reflexivity|]. split; [reflexivity|].
  exact (proj2 (proj2 (proj2 (extension_is_plain "/a.b/.c..MP4" eq_refl)))).
Defined.

(* ===================================================================== *)
(** ** The catalog as a set of names *)
(* ===================================================================== *)

Lemma dict_set_keys_in (k v : string) (d : dict) (k' : string) :
  In k' (keys (dict_set k v d)) <-> k' = k \/ In k' (keys d).
Proof.
  induction d as [|[k0 v0] d IH]; cbn.
  - split; [intros [H|[]]; left; now symmetry|intros [H|[]]; left; now symmetry].
  - destruct (String.eqb_spec k0 k) as [->|Hne]; cbn.
    + split; [intros [H|H]; [left; now symmetry|right; now right]|].
      intros [H|[H|H]]; [left; now symmetry|left; exact H|right; exact H].
    + rewrite IH. tauto.
Qed.

Lemma dict_set_nodup (k v : string) (d : dict) :
  NoDup (keys d) -> NoDup (keys (dict_set k v d)).
Proof.
  induction d as [|[k0 v0] d IH]; cbn; intros H.
  - constructor; [intros []|constructor].
  - inversion H as [|? ? Hnin Hd]; subst.
    destruct (String.eqb_spec k0 k) as [->|Hne]; cbn.
    + now constructor.
    + constructor; [|now apply IH].
      intros Hin. apply dict_set_keys_in in Hin.
      destruct Hin as [->|Hin]; [now apply Hne|contradiction].
Qed.

Lemma dict_update_nodup (other d : dict) :
  NoDup (keys d) -> NoDup (keys (dict_update d other)).
Proof.
  unfold dict_update. revert d.
  induction other as [|[k v] other IH]; cbn; intros d H; [exact H|].
  apply IH. now apply dict_set_nodup.
Qed.

Lemma keys_in_get (k : string) (d : dict) :
  In k (keys d) <-> dict_get k d <> None.
Proof.
  split.
  - intros H. destruct (dict_get_key _ _ H) as [v ->]. discriminate.
  - destruct (dict_get k d) as [v|] eqn:E; [|contradiction]. intros _.
    apply dict_get_in in E. unfold keys.
    change k with (fst (k, v)). now apply in_map.
Qed.

Section CatalogFacts.

Variable env : Env.

(** X13: the catalog holds every name once, however many of the three
    directories list it: its keys have no repeat, and they are exactly the
    names with the extension [mp4] that one of the directories lists. *)
Theorem music_catalog_names_once :
  NoDup (keys (music_catalog env))
  /\ forall f,
       In f (keys (music_catalog env)) <->
       (exists mdir, In mdir (music_dirs env) /\ listed env mdir f = true).
Proof.
  split.
  - unfold music_catalog.
    assert (G : forall dirs acc,
      NoDup (keys acc) ->
      NoDup (keys (fold_left (fun music mdir =>
                                dict_update music (music_in env mdir))
                     dirs acc))).
    { induction dirs as [|mdir dirs IH]; cbn; intros acc H; [exact H|].
      apply IH. now apply dict_update_nodup. }
    apply G. constructor.
  - intros f. rewrite keys_in_get, music_catalog_get. unfold music_dirs.
    split.
    + intros H.
      destruct (listed env (MUSICDIR (OPTIONS env)) f) eqn:E3;
        [eexists; split; [right; right; left; reflexivity|exact E3]|].
      destruct (listed env (OsPath.join (USERDATA env) "music") f) eqn:E2;
        [eexists; split; [right; left; reflexivity|exact E2]|].
      destruct (listed env (OsPath.join (DATADIR (OPTIONS env)) "music") f)
        eqn:E1; [eexists; split; [left; reflexivity|exact E1]|].
      contradiction.
    + intros [mdir [[<-|[<-|[<-|[]]]] Hl]].
      * destruct (listed env (MUSICDIR (OPTIONS env)) f); [discriminate|].
        destruct (listed env (OsPath.join (USERDATA env) "music") f);
          [discriminate|].
        rewrite Hl. discriminate.
      * destruct (listed env (MUSICDIR (OPTIONS env)) f); [discriminate|].
        rewrite Hl. discriminate.
      * rewrite Hl. discriminate.
Qed.

End CatalogFacts.

(* ===================================================================== *)
(** ** The loop of [random_music] *)
(* ===================================================================== *)

Lemma endswith_occurs (s : string) (c : ascii) :
  Py.endswith s c = true -> occurs c s = true.
Proof.
  induction s as [|a s IH]; cbn; [discriminate|].
  destruct s as [|b s].
  - intros ->. reflexivity.
  - intros H. rewrite (IH H). apply orb_true_r.
Qed.

(** A name without separator, joined to a directory that has a name, gives
    a path with a separator. *)
Lemma join_has_sep (mdir f : string) :
  mdir <> "" ->
  occurs "/" f = false ->
  occurs "/" (OsPath.join mdir f) = true.
Proof.
  intros Hm Hf. unfold OsPath.join, OsPath.sep.
  assert (Hs : Py.startswith f "/" = false).
  { destruct f as [|a f]; [reflexivity|]. cbn in *.
    now apply orb_false_iff in Hf. }
  rewrite Hs. destruct (String.eqb_spec mdir "") as [->|_]; [contradiction|].
  cbn [orb]. destruct (Py.endswith mdir "/") eqn:He.
  - rewrite occurs_app, (endswith_occurs _ _ He). reflexivity.
  - rewrite occurs_app. cbn. apply orb_true_r.
Qed.

Section MusicLoop.

Variable env : Env.

(** X14: when the empty path is no directory and no listed name holds a
    path separator (as [os.path.isdir] and [os.listdir] have it), the path
    that a returning [random_music] leaves in [_last_music] is never a key
    of the catalog; so on the next call over two entries or more the test
    [video != _last_music] accepts the first draw, whichever entry it is. *)
Theorem random_music_never_refuses_a_draw (w w1 : World) (p : string) :
  listing env "" = None ->
  (forall mdir names f,
      listing env mdir = Some names -> In f names -> occurs "/" f = false) ->
  random_music env w = (Return p, w1) ->
  (forall k, In k (keys (music_catalog env)) -> _last_music w1 <> Some k)
  /\ (forall r rs,
        (2 <= List.length (music_catalog env))%nat ->
        draws w1 = r :: rs ->
        exists p',
          dict_get (choice (keys (music_catalog env)) r) (music_catalog env)
          = Some p'
          /\ random_music env w1
             = (Return p',
                set_last_music (Some p')
                  (set_draws rs
                     (add_log
                        (LogDebugMusicFound (List.length (music_catalog env)))
                        w1)))).
Proof.
  intros Hempty Hnames Hret.
  assert (Hentry : forall f v, In (f, v) (music_catalog env) ->
            occurs "/" f = false /\ occurs "/" v = true).
  { intros f v Hin.
    destruct (music_catalog_entries env _ _ Hin) as [mdir [_ [-> [Hl _]]]].
    unfold listdir_if_isdir in Hl.
    destruct (listing env mdir) as [names|] eqn:El; [|destruct Hl].
    pose proof (Hnames _ _ _ El Hl) as Hf. split; [exact Hf|].
    apply join_has_sep; [|exact Hf]. intros ->. congruence. }
  assert (Hlast : exists f, _last_music w1 = Some p
                            /\ In (f, p) (music_catalog env)).
  { revert Hret. rewrite random_music_eq. cbv zeta.
    destruct (music_catalog env) as [|[f v] [|kv rest]] eqn:Ec;
      [discriminate| |].
    - intros [= -> <-]. exists f. split; [reflexivity|now left].
    - destruct (choice_until_new _ _ _) as [[video rs']|]; [|discriminate].
      destruct (dict_get video _) as [v'|] eqn:Eg; [|discriminate].
      intros [= -> <-]. exists video. split; [reflexivity|].
      now apply dict_get_in. }
  destruct Hlast as [f [Hl Hin]].
  assert (Hkeys : forall k, In k (keys (music_catalog env)) ->
                            _last_music w1 <> Some k).
  { intros k Hk. rewrite Hl. intros [= ->].
    destruct (dict_get_key _ _ Hk) as [v Hv]. apply dict_get_in in Hv.
    destruct (Hentry _ _ Hv) as [Hk0 _].
    destruct (Hentry _ _ Hin) as [_ Hk1]. congruence. }
  split; [exact Hkeys|].
  intros r rs Hlen Hd.
  exact (random_music_takes_first_draw env w1 r rs Hlen Hd Hkeys).
Qed.

End MusicLoop.

(** Witness of [random_music_never_refuses_a_draw]: two songs, a first
    call that draws index 1, and a second call whose draw is index 1
    again. *)
Lemma random_music_never_refuses_a_draw_witness :
  random_music Scenario.env (Scenario.world [1%nat; 1%nat])
  = (Return "/data/music/b.mp4",
     set_last_music (Some "/data/music/b.mp4")
       (set_draws [1%nat]
          (add_log (LogDebugMusicFound 2) (Scenario.world [1%nat; 1%nat]))))
  /\ exists p',
       dict_get (choice (keys (music_catalog Scenario.env)) 1)
         (music_catalog Scenario.env) = Some p'
       /\ random_music Scenario.env
            (set_last_music (Some "/data/music/b.mp4")
               (set_draws [1%nat]
                  (add_log (LogDebugMusicFound 2)
                     (Scenario.world [1%nat; 1%nat]))))
          = (Return p',
             set_last_music (Some p')
               (set_draws []
                  (add_log
                     (LogDebugMusicFound
                        (List.length (music_catalog Scenario.env)))
                     (set_last_music (Some "/data/music/b.mp4")
                        (set_draws [1%nat]
                           (add_log (LogDebugMusicFound 2)
                              (Scenario.world [1%nat; 1%nat]))))))).
Proof.
  assert (H : random_music Scenario.env (Scenario.world [1%nat; 1%nat])
              = (Return "/data/music/b.mp4",
                 set_last_music (Some "/data/music/b.mp4")
                   (set_draws [1%nat]
                      (add_log (LogDebugMusicFound 2)
                         (Scenario.world [1%nat; 1%nat])))))
    by reflexivity.
  split; [exact H|].
  assert (Hnames : forall mdir names f,
            listing Scenario.env mdir = Some names -> In f names ->
            occurs "/" f = false).
  { intros mdir names f. cbn. unfold Scenario.fs.
    destruct (String.eqb mdir "/data/music").
    - intros [= <-] [<-|[<-|[]]]; reflexivity.
    - destruct (String.eqb mdir "/data/backgrounds"); [|discriminate].
      intros [= <-] [<-|[<-|[]]]; reflexivity. }
  exact (proj2 (random_music_never_refuses_a_draw Scenario.env _ _ _
                  eq_refl Hnames H)
           1%nat [] (le_n 2) eq_refl).
Defined.

(* ===================================================================== *)
(** ** What [random_background] leaves on the display *)
(* ===================================================================== *)

Section BackgroundEffects.

Variable env : Env.

Lemma painted_effects (bg : string) (pic : Picture) (w : World) :
  _current_background (painted env bg pic w) = Some bg
  /\ get_size (display (painted env bg pic w)) = get_size (display w)
  /\ exists dest,
       drawn (display (painted env bg pic w))
       = (drawn (display w)
          ++ [Fill (BG_COLOR (OPTIONS env)); Blit pic dest])%list.
Proof.
  unfold painted, blitted, filled, centerblit, surface_fill, modify.
  cbn [snd display set_display get_size].
  destruct (get_size (display w)) as [w_ h_], (pic_size pic) as [x y].
  cbn. split; [reflexivity|]. split; [reflexivity|].
  eexists. rewrite <- app_assoc. reflexivity.
Qed.

Lemma filled_effects (w : World) :
  _current_background (filled env w) = _current_background w
  /\ drawn (display (filled env w))
     = (drawn (display w) ++ [Fill (BG_COLOR (OPTIONS env))])%list.
Proof. split; reflexivity. Qed.

(** The image [random_background] works on comes from the listing. *)
Lemma random_background_choice (names : list string) (w : World)
    (o : outcome unit) (w' : World) :
  listing env (bgdir env) = Some names ->
  backgrounds_in (bgdir env) names <> [] ->
  random_background env Display w = (o, w') ->
  o = Starved
  \/ exists bg w0,
       In bg (backgrounds_in (bgdir env) names)
       /\ _current_background w0 = _current_background w
       /\ display w0 = display w
       /\ (o, w')
          = match image_load env bg with
            | Error e => (Raise e, filled env w0)
            | Ok image =>
                match resize env image (get_size (display w0)) with
                | Error e => (Raise e, filled env w0)
                | Ok pic => (Return tt, painted env bg pic w0)
                end
            end.
Proof.
  intros Hl Hne. rewrite random_background_eq, Hl. cbv zeta.
  destruct (backgrounds_in (bgdir env) names) as [|bg [|bg' rest]] eqn:Eb;
    [contradiction| |].
  - intros H. right. exists bg, w. repeat split; [now left|now symmetry].
  - destruct (choice_until_new _ _ _) as [[bg0 rs']|] eqn:Ech.
    + intros H. right. exists bg0, (set_draws rs' w).
      apply choice_until_new_spec in Ech; [|discriminate].
      repeat split; [tauto|now symmetry].
    + intros [= <- _]. now left.
Qed.

(** X15: when the directory holds a recognized image, a
    [random_background] that returns has drawn exactly a fill with the
    background colour and then one blit on the display, whose size is
    unchanged, and remembers the path of a listed file with one of the
    extensions [bmp], [jpg], [jpeg], [png], joined to the directory. *)
Theorem random_background_paints_one_image (names : list string)
    (w w' : World) :
  listing env (bgdir env) = Some names ->
  backgrounds_in (bgdir env) names <> [] ->
  random_background env Display w = (Return tt, w') ->
  exists f pic dest,
    In f names
    /\ Py.str_in (extension f) ["bmp"; "jpg"; "jpeg"; "png"] = true
    /\ _current_background w' = Some (OsPath.join (bgdir env) f)
    /\ drawn (display w')
       = (drawn (display w)
          ++ [Fill (BG_COLOR (OPTIONS env)); Blit pic dest])%list
    /\ get_size (display w') = get_size (display w).
Proof.
  intros Hl Hne H.
  destruct (random_background_choice _ _ _ _ Hl Hne H)
    as [E|[bg [w0 [Hin [Hc [Hd E]]]]]]; [discriminate|].
  destruct (image_load env bg) as [image|e]; [|discriminate].
  destruct (resize env image _) as [pic|e]; [|discriminate].
  injection E as ->.
  unfold backgrounds_in in Hin. apply in_map_iff in Hin.
  destruct Hin as [f [<- Hf]]. apply filter_In in Hf. destruct Hf as [Hf He].
  destruct (painted_effects (OsPath.join (bgdir env) f) pic w0)
    as [A [B [dest C]]].
  exists f, pic, dest. rewrite A, B, C, Hd. auto.
Qed.

(** X16: when the directory is there and [random_background] raises, it is
    because pygame could not load or scale the image it had chosen; the
    display has then been filled with the background colour and nothing
    else drawn on it, and the remembered background is the one from before
    the call. *)
Theorem random_background_load_failure (names : list string) (w w' : World)
    (e : exn) :
  listing env (bgdir env) = Some names ->
  random_background env Display w = (Raise e, w') ->
  _current_background w' = _current_background w
  /\ drawn (display w')
     = (drawn (display w) ++ [Fill (BG_COLOR (OPTIONS env))])%list
  /\ exists bg,
       In bg (backgrounds_in (bgdir env) names)
       /\ (image_load env bg = Error e
           \/ exists image,
                image_load env bg = Ok image
                /\ resize env image (get_size (display w)) = Error e).
Proof.
  intros Hl H.
  assert (Hne : backgrounds_in (bgdir env) names <> []).
  { intros E. rewrite random_background_eq, Hl, E in H. discriminate. }
  destruct (random_background_choice _ _ _ _ Hl Hne H)
    as [E|[bg [w0 [Hin [Hc [Hd E]]]]]]; [discriminate|].
  destruct (filled_effects w0) as [A B]. rewrite Hd in B.
  destruct (image_load env bg) as [image|e0] eqn:Ei.
  - rewrite Hd in E.
    destruct (resize env image (get_size (display w))) as [pic|e0] eqn:Er;
      [discriminate|].
    injection E as -> ->. rewrite A, B, Hc.
    split; [reflexivity|]. split; [reflexivity|].
    exists bg. split; [exact Hin|]. right. exists image. auto.
  - injection E as -> ->. rewrite A, B, Hc.
    split; [reflexivity|]. split; [reflexivity|].
    exists bg. split; [exact Hin|]. now left.
Qed.

End BackgroundEffects.

(** Witness of [random_background_paints_one_image]: two images, the
    generator giving index 1. *)
Lemma random_background_paints_one_image_witness :
  random_background Scenario.env Display (Scenario.world [1%nat])
  = (Return tt,
     painted Scenario.env "/data/backgrounds/y.jpg"
       {| pic_size := (1600, 900); pic_data := "/data/backgrounds/y.jpg" |}
       (Scenario.world []))
  /\ exists f pic dest,
       In f ["x.png"; "y.jpg"]
       /\ Py.str_in (extension f) ["bmp"; "jpg"; "jpeg"; "png"] = true
       /\ _current_background
            (painted Scenario.env "/data/backgrounds/y.jpg"
               {| pic_size := (1600, 900);
                  pic_data := "/data/backgrounds/y.jpg" |}
               (Scenario.world []))
          = Some (OsPath.join (bgdir Scenario.env) f)
       /\ drawn (display
            (painted Scenario.env "/data/backgrounds/y.jpg"
               {| pic_size := (1600, 900);
                  pic_data := "/data/backgrounds/y.jpg" |}
               (Scenario.world [])))
          = (drawn (display (Scenario.world [1%nat]))
             ++ [Fill (BG_COLOR (OPTIONS Scenario.env)); Blit pic dest])%list
       /\ get_size (display
            (painted Scenario.env "/data/backgrounds/y.jpg"
               {| pic_size := (1600, 900);
                  pic_data := "/data/backgrounds/y.jpg" |}
               (Scenario.world [])))
          = get_size (display (Scenario.world [1%nat])).
Proof.
  assert (H : random_background Scenario.env Display (Scenario.world [1%nat])
              = (Return tt,
                 painted Scenario.env "/data/backgrounds/y.jpg"
                   {| pic_size := (1600, 900);
                      pic_data := "/data/backgrounds/y.jpg" |}
                   (Scenario.world []))) by reflexivity.
  split; [exact H|].
  apply (random_background_paints_one_image Scenario.env ["x.png"; "y.jpg"]
           (Scenario.world [1%nat]) _ eq_refl); [discriminate|exact H].
Defined.

(** Witness of [random_background_load_failure]: two image files that
    pygame cannot read. *)
Lemma random_background_load_failure_witness :
  random_background Scenario.env_unreadable Display (Scenario.world [0%nat])
  = (Raise (Exn PygameError "Unsupported image format"),
     filled Scenario.env_unreadable (Scenario.world []))
  /\ _current_background (filled Scenario.env_unreadable (Scenario.world []))
     = _current_background (Scenario.world [0%nat])
  /\ drawn (display (filled Scenario.env_unreadable (Scenario.world [])))
     = (drawn (display (Scenario.world [0%nat]))
        ++ [Fill (BG_COLOR (OPTIONS Scenario.env_unreadable))])%list.
Proof.
  assert (H : random_background Scenario.env_unreadable Display
                (Scenario.world [0%nat])
              = (Raise (Exn PygameError "Unsupported image format"),
                 filled Scenario.env_unreadable (Scenario.world [])))
    by reflexivity.
  split; [exact H|].
  destruct (random_background_load_failure Scenario.env_unreadable
              ["x.png"; "y.jpg"] _ _ _ eq_refl H) as [A [B _]].
  split; [exact A|exact B].
Defined.

(* ===================================================================== *)
(** ** The command line *)
(* ===================================================================== *)

Lemma str_in_In (a : string) (l : list string) :
  Py.str_in a l = true -> In a l.
Proof.
  unfold Py.str_in. intros H. apply existsb_exists in H.
  destruct H as [x [Hin Hx]]. apply String.eqb_eq in Hx. now subst.
Qed.

(** The six tuples share no string. *)
Lemma flag_kinds_apart (a : string) :
  (Startup.is_quiet a = true ->
   Startup.is_fullscreen a = false)
  /\ (Startup.is_debug a = true ->
      Startup.is_fullscreen a = false /\ Startup.is_quiet a = false)
  /\ (Startup.is_fps a = true ->
      Startup.is_fullscreen a = false /\ Startup.is_quiet a = false
      /\ Startup.is_debug a = false)
  /\ (Startup.is_config a = true ->
      Startup.is_fullscreen a = false /\ Startup.is_quiet a = false
      /\ Startup.is_debug a = false /\ Startup.is_fps a = false).
Proof.
  split; [|split; [|split]]; intros H; apply str_in_In in H; cbn in H;
    intuition (subst; reflexivity).
Qed.

Section StartupFacts.

Variable py_int : string -> option Z.
Variable expanduser : string -> string.
Variable read_config : list string -> Startup.config_get.
Variable CONFIG_default : string.
Variable DATADIR : string.

Local Abbreviation scan_flags := (Startup.scan_flags py_int).
Local Abbreviation startup :=
  (Startup.startup py_int expanduser read_config CONFIG_default DATADIR).

(** The second loop writes [MUSICDIR] only. *)
Lemma scan_music_frame (argv : list string) (o o' : Startup.options) :
  Startup.scan_music argv o = inr o' ->
  Startup.FULLSCREEN o' = Startup.FULLSCREEN o
  /\ Startup.LOGLEVEL o' = Startup.LOGLEVEL o
  /\ Startup.DEBUG o' = Startup.DEBUG o.
Proof.
  revert o. induction argv as [|arg rest IH]; intros o;
    cbn [Startup.scan_music Startup.scan_flags].
  - intros [= <-]. auto.
  - destruct (Startup.is_music arg).
    + destruct rest as [|dir rest']; [discriminate|].
      intros H. apply IH in H. exact H.
    + apply IH.
Qed.

Lemma scan_music_none (argv : list string) (o : Startup.options) :
  Forall (fun a => Startup.is_music a = false) argv ->
  Startup.scan_music argv o = inr o.
Proof.
  induction 1 as [|arg rest Ha _ IH]; cbn [Startup.scan_music];
    [reflexivity|]. now rewrite Ha.
Qed.

Lemma scan_music_last (pre post : list string) (flag dir : string)
    (o o' : Startup.options) :
  Startup.is_music flag = true ->
  Startup.is_music dir = false ->
  Forall (fun a => Startup.is_music a = false) post ->
  Startup.scan_music (pre ++ flag :: dir :: post) o = inr o' ->
  Startup.MUSICDIR o' = dir.
Proof.
  intros Hf Hd Hpost. revert o.
  induction pre as [|arg pre IH]; intros o.
  - cbn [app Startup.scan_music]. rewrite Hf, Hd.
    rewrite (scan_music_none _ _ Hpost). now intros [= <-].
  - cbn [app Startup.scan_music]. destruct (Startup.is_music arg).
    + destruct (pre ++ flag :: dir :: post)%list as [|x tl];
        [discriminate|].
      apply IH.
    + apply IH.
Qed.

(** The first loop leaves [MUSICDIR] alone. *)
Lemma scan_flags_musicdir (argv : list string) (o o' : Startup.options) :
  scan_flags argv o = inr o' -> Startup.MUSICDIR o' = Startup.MUSICDIR o.
Proof.
  revert o. induction argv as [|arg rest IH]; intros o;
    cbn [Startup.scan_music Startup.scan_flags].
  - now intros [= <-].
  - destruct (Startup.is_fullscreen arg); [intros H; now apply IH in H|].
    destruct (Startup.is_quiet arg); [intros H; now apply IH in H|].
    destruct (Startup.is_debug arg); [intros H; now apply IH in H|].
    destruct (Startup.is_fps arg).
    { destruct rest as [|text rest']; [discriminate|].
      destruct (py_int text); [|discriminate].
      intros H. now apply IH in H. }
    destruct (Startup.is_config arg).
    { destruct rest as [|path rest']; [discriminate|].
      intros H. now apply IH in H. }
    apply IH.
Qed.

(** X17: the music directory is taken from the command line first, then
    from the configuration file, then from the default. When [main] gets to
    its loop: the value that follows the last music flag of [argv] wins,
    whatever the configuration file holds; with no music flag, the
    configuration file's [music] value (through [expanduser]) wins; and with
    neither (no file read, or no such option in it) the default stays. The
    log line [Reading music from:] names the directory retained. *)
Theorem music_directory_precedence (argv : list string)
    (o0 o : Startup.options) (lines : list Startup.line) :
  startup argv o0 = Startup.Started o lines ->
  (exists before,
      lines = (before ++ [Startup.ReadingMusicFrom (Startup.MUSICDIR o)])%list)
  /\ (forall pre flag dir post,
        argv = (pre ++ flag :: dir :: post)%list ->
        Startup.is_music flag = true ->
        Startup.is_music dir = false ->
        Forall (fun a => Startup.is_music a = false) post ->
        Startup.MUSICDIR o = dir)
  /\ (Forall (fun a => Startup.is_music a = false) argv ->
      (forall v, (forall files, read_config files = Startup.Music v) ->
                 Startup.MUSICDIR o = expanduser v)
      /\ ((forall files, read_config files = Startup.NothingRead)
          \/ (exists msg,
                forall files, read_config files = Startup.NoOptionError msg) ->
          Startup.MUSICDIR o = Startup.MUSICDIR o0)).
Proof.
  unfold Startup.startup.
  destruct (scan_flags argv o0) as [e|o1] eqn:E1; [discriminate|].
  pose proof (scan_flags_musicdir _ _ _ E1) as Hm1.
  set (o2 := Startup.set_DEBUG (Startup.LOGLEVEL o1 =? logging.DEBUG) o1).
  destruct (read_config (Startup.config_files CONFIG_default DATADIR o2))
    as [|v|msg|name] eqn:Ec; [| | |discriminate].
  - destruct (Startup.scan_music argv o2) as [e|o4] eqn:E2; [discriminate|].
    intros [= <- <-]. split; [now exists []|]. split.
    + intros pre flag dir post -> Hf Hd Hp.
      exact (scan_music_last _ _ _ _ _ _ Hf Hd Hp E2).
    + intros Hnone. rewrite (scan_music_none _ _ Hnone) in E2.
      injection E2 as <-. split.
      * intros v Hv. rewrite Hv in Ec. discriminate.
      * intros _. exact Hm1.
  - destruct (Startup.scan_music argv
                (Startup.set_MUSICDIR (expanduser v) o2)) as [e|o4] eqn:E2;
      [discriminate|].
    intros [= <- <-]. split; [now exists []|]. split.
    + intros pre flag dir post -> Hf Hd Hp.
      exact (scan_music_last _ _ _ _ _ _ Hf Hd Hp E2).
    + intros Hnone. rewrite (scan_music_none _ _ Hnone) in E2.
      injection E2 as <-. split.
      * intros v' Hv. rewrite Hv in Ec. now injection Ec as <-.
      * intros [Hv|[msg Hv]]; rewrite Hv in Ec; discriminate.
  - destruct (Startup.scan_music argv o2) as [e|o4] eqn:E2; [discriminate|].
    intros [= <- <-].
    split; [now exists [Startup.Warning msg (Startup.CONFIG o2)]|]. split.
    + intros pre flag dir post -> Hf Hd Hp.
      exact (scan_music_last _ _ _ _ _ _ Hf Hd Hp E2).
    + intros Hnone. rewrite (scan_music_none _ _ Hnone) in E2.
      injection E2 as <-. split.
      * intros v Hv. rewrite Hv in Ec. discriminate.
      * intros _. exact Hm1.
Qed.

End StartupFacts.

(** Witness of [music_directory_precedence]: [-m] given twice, with a
    configuration file that names another directory. *)
Lemma music_directory_precedence_witness :
  Scenario.startup ["-m"; "/a"; "-f"; "--music-dir"; "/b"; "-q"]
  = Startup.Started
      {| Startup.FULLSCREEN := true;
         Startup.LOGLEVEL := logging.WARNING;
         Startup.DEBUG := false;
         Startup.FPS := 60;
         Startup.CONFIG := "/home/u/.config/videoke/videoke.ini";
         Startup.MUSICDIR := "/b" |}
      [Startup.ReadingMusicFrom "/b"]
  /\ Startup.MUSICDIR
       {| Startup.FULLSCREEN := true;
          Startup.LOGLEVEL := logging.WARNING;
          Startup.DEBUG := false;
          Startup.FPS := 60;
          Startup.CONFIG := "/home/u/.config/videoke/videoke.ini";
          Startup.MUSICDIR := "/b" |}
     = "/b".
Proof.
  assert (H : Scenario.startup ["-m"; "/a"; "-f"; "--music-dir"; "/b"; "-q"]
              = Startup.Started
                  {| Startup.FULLSCREEN := true;
                     Startup.LOGLEVEL := logging.WARNING;
                     Startup.DEBUG := false;
                     Startup.FPS := 60;
                     Startup.CONFIG := "/home/u/.config/videoke/videoke.ini";
                     Startup.MUSICDIR := "/b" |}
                  [Startup.ReadingMusicFrom "/b"]) by reflexivity.
  split; [exact H|].
  apply (proj1 (proj2 (music_directory_precedence _ _ _ _ _ _ _ _ _ H))
           ["-m"; "/a"; "-f"] "--music-dir" "/b" ["-q"]);
    [reflexivity|reflexivity|reflexivity|].
  repeat constructor.
Defined.

Section FlagFacts.

Variable py_int : string -> option Z.
Variable expanduser : string -> string.
Variable read_config : list string -> Startup.config_get.
Variable CONFIG_default : string.
Variable DATADIR : string.

Local Abbreviation scan_flags := (Startup.scan_flags py_int).
Local Abbreviation startup :=
  (Startup.startup py_int expanduser read_config CONFIG_default DATADIR).

(** A flag that wants a value, in last place, stops the first loop. *)
Lemma scan_flags_missing_value (pre : list string) (flag : string)
    (o : Startup.options) :
  Startup.is_fps flag = true \/ Startup.is_config flag = true ->
  exists e, scan_flags (pre ++ [flag]) o = inl e.
Proof.
  intros Hflag. revert o. induction pre as [|arg pre IH]; intros o.
  - cbn [app Startup.scan_flags].
    destruct (flag_kinds_apart flag) as [_ [_ [Hfps Hcfg]]].
    destruct Hflag as [H|H].
    + destruct (Hfps H) as [-> [-> ->]]. rewrite H. eauto.
    + destruct (Hcfg H) as [-> [-> [-> ->]]]. rewrite H. eauto.
  - cbn [app Startup.scan_flags].
    destruct (Startup.is_fullscreen arg); [apply IH|].
    destruct (Startup.is_quiet arg); [apply IH|].
    destruct (Startup.is_debug arg); [apply IH|].
    destruct (Startup.is_fps arg).
    { destruct (pre ++ [flag])%list as [|text tl]; [eauto|].
      destruct (py_int text); [apply IH|eauto]. }
    destruct (Startup.is_config arg).
    { destruct (pre ++ [flag])%list as [|path tl]; [eauto|apply IH]. }
    apply IH.
Qed.

Lemma scan_music_missing_value (pre : list string) (flag : string)
    (o : Startup.options) :
  Startup.is_music flag = true ->
  exists e, Startup.scan_music (pre ++ [flag]) o = inl e.
Proof.
  intros Hflag. revert o. induction pre as [|arg pre IH]; intros o.
  - cbn [app Startup.scan_music]. rewrite Hflag. eauto.
  - cbn [app Startup.scan_music].
    destruct (Startup.is_music arg); [|apply IH].
    destruct (pre ++ [flag])%list as [|dir tl]; [eauto|apply IH].
Qed.

(** X18: a command line that ends with a flag that wants a value
    ([-F], [--fps], [--FPS], [-c], [--config], [-m], [--music],
    [--music-dir]) never lets [main] reach its loop: an exception leaves
    [main], whatever comes before the flag and whatever the configuration
    file holds. *)
Theorem flag_without_value_stops_main (pre : list string) (flag : string)
    (o0 : Startup.options) :
  Startup.is_fps flag = true \/ Startup.is_config flag = true
  \/ Startup.is_music flag = true ->
  exists e, startup (pre ++ [flag]) o0 = Startup.Raised e.
Proof.
  intros Hflag. unfold Startup.startup.
  destruct (scan_flags (pre ++ [flag]) o0) as [e|o1] eqn:E1; [eauto|].
  destruct Hflag as [H|[H|H]].
  - destruct (scan_flags_missing_value pre flag o0 (or_introl H)) as [e E].
    congruence.
  - destruct (scan_flags_missing_value pre flag o0 (or_intror H)) as [e E].
    congruence.
  - destruct (read_config _) as [|v|msg|name]; [| | |eauto].
    + destruct (scan_music_missing_value pre flag
                  (Startup.set_DEBUG (Startup.LOGLEVEL o1 =? logging.DEBUG) o1)
                  H) as [e ->].
      eauto.
    + destruct (scan_music_missing_value pre flag
                  (Startup.set_MUSICDIR (expanduser v)
                     (Startup.set_DEBUG
                        (Startup.LOGLEVEL o1 =? logging.DEBUG) o1))
                  H) as [e ->].
      eauto.
    + destruct (scan_music_missing_value pre flag
                  (Startup.set_DEBUG (Startup.LOGLEVEL o1 =? logging.DEBUG) o1)
                  H) as [e ->].
      eauto.
Qed.

Lemma scan_flags_fullscreen (argv : list string) (o o' : Startup.options) :
  scan_flags argv o = inr o' ->
  Startup.FULLSCREEN o'
  = Startup.FULLSCREEN o || existsb Startup.is_fullscreen argv.
Proof.
  revert o. induction argv as [|arg rest IH]; intros o;
    cbn [Startup.scan_flags existsb].
  - intros [= <-]. now rewrite orb_false_r.
  - destruct (Startup.is_fullscreen arg).
    { intros H. rewrite (IH _ H). cbn. now rewrite orb_true_r. }
    cbn [orb].
    destruct (Startup.is_quiet arg); [intros H; now rewrite (IH _ H)|].
    destruct (Startup.is_debug arg); [intros H; now rewrite (IH _ H)|].
    destruct (Startup.is_fps arg).
    { destruct rest as [|text rest']; [discriminate|].
      destruct (py_int text); [|discriminate].
      intros H. now rewrite (IH _ H). }
    destruct (Startup.is_config arg).
    { destruct rest as [|path rest']; [discriminate|].
      intros H. now rewrite (IH _ H). }
    apply IH.
Qed.

(** X19: when [main] gets to its loop, [FULLSCREEN] is set exactly when it
    was set before or some element of [argv] is [-f] or [--fullscreen]; the
    element counts wherever it stands, also where the value of [--fps] or
    [--config] is expected, and nothing on the command line or in the
    configuration file clears the option. *)
Theorem fullscreen_flag_anywhere (argv : list string)
    (o0 o : Startup.options) (lines : list Startup.line) :
  startup argv o0 = Startup.Started o lines ->
  Startup.FULLSCREEN o
  = Startup.FULLSCREEN o0 || existsb Startup.is_fullscreen argv.
Proof.
  unfold Startup.startup.
  destruct (scan_flags argv o0) as [e|o1] eqn:E1; [discriminate|].
  rewrite <- (scan_flags_fullscreen _ _ _ E1).
  destruct (read_config _) as [|v|msg|name]; [| | |discriminate];
    match goal with
    | |- context [Startup.scan_music argv ?x] =>
        destruct (Startup.scan_music argv x) as [e|o4] eqn:E2;
          [discriminate|]
    end;
    intros [= <- _]; destruct (scan_music_frame _ _ _ E2) as [-> _];
    reflexivity.
Qed.

End FlagFacts.

(** Witness of [flag_without_value_stops_main]: [--fps] in last place. *)
Lemma flag_without_value_stops_main_witness :
  exists e, Scenario.startup (["-f"; "-q"] ++ ["--fps"]) = Startup.Raised e.
Proof.
  exact (flag_without_value_stops_main _ _ _ _ _ ["-f"; "-q"] "--fps"
           Scenario.defaults (or_introl eq_refl)).
Defined.

(** Witness of [fullscreen_flag_anywhere]: [-f] where the path of the
    configuration file is expected. *)
Lemma fullscreen_flag_anywhere_witness :
  Scenario.startup ["--config"; "-f"]
  = Startup.Started
      {| Startup.FULLSCREEN := true;
         Startup.LOGLEVEL := logging.INFO;
         Startup.DEBUG := false;
         Startup.FPS := 60;
         Startup.CONFIG := "-f";
         Startup.MUSICDIR := "/home/u/songs" |}
      [Startup.ReadingMusicFrom "/home/u/songs"]
  /\ Startup.FULLSCREEN
       {| Startup.FULLSCREEN := true;
          Startup.LOGLEVEL := logging.INFO;
          Startup.DEBUG := false;
          Startup.FPS := 60;
          Startup.CONFIG := "-f";
          Startup.MUSICDIR := "/home/u/songs" |}
     = Startup.FULLSCREEN Scenario.defaults
       || existsb Startup.is_fullscreen ["--config"; "-f"].
Proof.
  assert (H : Scenario.startup ["--config"; "-f"]
              = Startup.Started
                  {| Startup.FULLSCREEN := true;
                     Startup.LOGLEVEL := logging.INFO;
                     Startup.DEBUG := false;
                     Startup.FPS := 60;
                     Startup.CONFIG := "-f";
                     Startup.MUSICDIR := "/home/u/songs" |}
                  [Startup.ReadingMusicFrom "/home/u/songs"]) by reflexivity.
  split; [exact H|].
  exact (fullscreen_flag_anywhere _ _ _ _ _ _ _ _ _ H).
Defined.

Section LogLevelFacts.

Variable py_int : string -> option Z.
Variable expanduser : string -> string.
Variable read_config : list string -> Startup.config_get.
Variable CONFIG_default : string.
Variable DATADIR : string.

Local Abbreviation scan_flags := (Startup.scan_flags py_int).
Local Abbreviation startup :=
  (Startup.startup py_int expanduser read_config CONFIG_default DATADIR).
Local Abbreviation no_level :=
  (fun a => Startup.is_quiet a = false /\ Startup.is_debug a = false).

Lemma scan_flags_no_level (argv : list string) (o o' : Startup.options) :
  Forall no_level argv ->
  scan_flags argv o = inr o' ->
  Startup.LOGLEVEL o' = Startup.LOGLEVEL o.
Proof.
  intros Hall. revert o.
  induction Hall as [|arg rest [Hq Hd] _ IH]; intros o;
    cbn [Startup.scan_flags].
  - now intros [= <-].
  - rewrite Hq, Hd.
    destruct (Startup.is_fullscreen arg); [intros H; now apply IH in H|].
    destruct (Startup.is_fps arg).
    { destruct rest as [|text rest']; [discriminate|].
      destruct (py_int text); [|discriminate].
      intros H. now apply IH in H. }
    destruct (Startup.is_config arg).
    { destruct rest as [|path rest']; [discriminate|].
      intros H. now apply IH in H. }
    apply IH.
Qed.

(** The first loop goes through a prefix and then through the rest. *)
Lemma scan_flags_app_inv (pre rest : list string) (o o' : Startup.options) :
  scan_flags (pre ++ rest) o = inr o' ->
  exists o1, scan_flags rest o1 = inr o'.
Proof.
  revert o. induction pre as [|arg pre IH]; intros o.
  - cbn [app]. eauto.
  - cbn [app Startup.scan_flags].
    destruct (Startup.is_fullscreen arg); [apply IH|].
    destruct (Startup.is_quiet arg); [apply IH|].
    destruct (Startup.is_debug arg); [apply IH|].
    destruct (Startup.is_fps arg).
    { destruct (pre ++ rest)%list as [|text tl]; [discriminate|].
      destruct (py_int text); [|discriminate]. apply IH. }
    destruct (Startup.is_config arg).
    { destruct (pre ++ rest)%list as [|path tl]; [discriminate|].
      apply IH. }
    apply IH.
Qed.

(** X20: of the flags [-q]/[--quiet] and [-d]/[--debug]/[-v]/[--verbose]
    the last one on the command line decides the log level ([WARNING] for
    the first two, [DEBUG] for the others), with none of them the level
    stays what it was, and [OPTIONS.DEBUG] is true exactly when the level
    retained is [DEBUG]. *)
Theorem log_level_last_flag_wins (argv : list string)
    (o0 o : Startup.options) (lines : list Startup.line) :
  startup argv o0 = Startup.Started o lines ->
  Startup.DEBUG o = (Startup.LOGLEVEL o =? logging.DEBUG)
  /\ (forall pre a post,
        argv = (pre ++ a :: post)%list ->
        Forall no_level post ->
        (Startup.is_quiet a = true -> Startup.LOGLEVEL o = logging.WARNING)
        /\ (Startup.is_debug a = true -> Startup.LOGLEVEL o = logging.DEBUG))
  /\ (Forall no_level argv -> Startup.LOGLEVEL o = Startup.LOGLEVEL o0).
Proof.
  unfold Startup.startup.
  destruct (scan_flags argv o0) as [e|o1] eqn:E1; [discriminate|].
  assert (Hend : Startup.LOGLEVEL o = Startup.LOGLEVEL o1
                 /\ Startup.DEBUG o
                    = (Startup.LOGLEVEL o1 =? logging.DEBUG) ->
    Startup.DEBUG o = (Startup.LOGLEVEL o =? logging.DEBUG)
    /\ (forall pre a post,
          argv = (pre ++ a :: post)%list ->
          Forall no_level post ->
          (Startup.is_quiet a = true -> Startup.LOGLEVEL o = logging.WARNING)
          /\ (Startup.is_debug a = true ->
              Startup.LOGLEVEL o = logging.DEBUG))
    /\ (Forall no_level argv -> Startup.LOGLEVEL o = Startup.LOGLEVEL o0)).
  { intros [Hl Hd]. rewrite Hl. split; [exact Hd|]. split.
    - intros pre a post -> Hpost.
      destruct (scan_flags_app_inv _ _ _ _ E1) as [oa Ha].
      cbn [Startup.scan_flags] in Ha.
      destruct (flag_kinds_apart a) as [Hq [Hdbg _]].
      split; intros H.
      + rewrite (Hq H), H in Ha.
        now rewrite (scan_flags_no_level _ _ _ Hpost Ha).
      + destruct (Hdbg H) as [Hf Hq'].
        rewrite Hf, Hq', H in Ha.
        now rewrite (scan_flags_no_level _ _ _ Hpost Ha).
    - intros Hall. exact (scan_flags_no_level _ _ _ Hall E1). }
  destruct (read_config _) as [|v|msg|name]; [| | |discriminate];
    match goal with
    | |- context [Startup.scan_music argv ?x] =>
        destruct (Startup.scan_music argv x) as [e|o4] eqn:E2;
          [discriminate|]
    end;
    intros [= -> _]; apply Hend;
    destruct (scan_music_frame _ _ _ E2) as [_ [-> ->]];
    split; reflexivity.
Qed.

End LogLevelFacts.

(** Witness of [log_level_last_flag_wins]: [-d], then [--quiet], then
    flags of other kinds. *)
Lemma log_level_last_flag_wins_witness :
  Scenario.startup ["-d"; "--quiet"; "--fps"; "30"]
  = Startup.Started
      {| Startup.FULLSCREEN := false;
         Startup.LOGLEVEL := logging.WARNING;
         Startup.DEBUG := false;
         Startup.FPS := 30;
         Startup.CONFIG := "/home/u/.config/videoke/videoke.ini";
         Startup.MUSICDIR := "/home/u/songs" |}
      [Startup.ReadingMusicFrom "/home/u/songs"]
  /\ Startup.LOGLEVEL
       {| Startup.FULLSCREEN := false;
          Startup.LOGLEVEL := logging.WARNING;
          Startup.DEBUG := false;
          Startup.FPS := 30;
          Startup.CONFIG := "/home/u/.config/videoke/videoke.ini";
          Startup.MUSICDIR := "/home/u/songs" |}
     = logging.WARNING.
Proof.
  assert (H : Scenario.startup ["-d"; "--quiet"; "--fps"; "30"]
              = Startup.Started
                  {| Startup.FULLSCREEN := false;
                     Startup.LOGLEVEL := logging.WARNING;
                     Startup.DEBUG := false;
                     Startup.FPS := 30;
                     Startup.CONFIG := "/home/u/.config/videoke/videoke.ini";
                     Startup.MUSICDIR := "/home/u/songs" |}
                  [Startup.ReadingMusicFrom "/home/u/songs"]) by reflexivity.
  split; [exact H|].
  apply (proj1 (proj1 (proj2 (log_level_last_flag_wins _ _ _ _ _ _ _ _ _ H))
                  ["-d"] "--quiet" ["--fps"; "30"] eq_refl
                  ltac:(repeat constructor)));
    reflexivity.
Defined.
